(** * saleor/graphql/middleware.py: the GraphQL middleware chain

    A shallow embedding of the resolver middleware of
    [saleor/graphql/middleware.py] and the properties of its per-request
    caches, channel resolution, app-token resolution, tracing interceptor and
    read-only guard.

    Python objects that the middleware mutates (the request and the
    [SimpleLazyObject] proxies stored on it) live in an explicit [world] that
    every computation threads; exceptions are an outcome of every
    computation; calls that leave the module (the identity provider, the
    default-channel helper, the app query, the tracer) are recorded in a
    trace and answered by oracles that are parameters of the development. *)

From stdpp Require Import base option list strings gmap.
From Stdlib Require Import Ascii ZArith Lia.

Local Open Scope string_scope.
Local Open Scope list_scope.

(** ** Python values *)

(** The values that reach the middleware through [**kwargs]: GraphQL
    arguments are [None], scalars, lists or input objects (dicts keyed by
    strings). *)
#[warnings="-register-all"]
Inductive pyval : Type :=
| PyNone
| PyBool (b : bool)
| PyInt (z : Z)
| PyStr (s : string)
| PyList (l : list pyval)
| PyDict (d : gmap string pyval).

(** Python truth value testing, as used by [if x], [x and y], [not x]. *)
Definition truthy (v : pyval) : bool :=
  match v with
  | PyNone => false
  | PyBool b => b
  | PyInt z => negb (Z.eqb z 0)
  | PyStr s => match s with EmptyString => false | String _ _ => true end
  | PyList l => match l with [] => false | _ :: _ => true end
  | PyDict d => match size d with O => false | S _ => true end
  end.

(** [isinstance(v, dict)] *)
Definition isinstance_dict (v : pyval) : bool :=
  match v with PyDict _ => true | _ => false end.

(** [d.get(k)] on a value already known to be a dict; a missing key gives
    [None]. *)
Definition dict_get (v : pyval) (k : string) : pyval :=
  match v with
  | PyDict d => default PyNone (d !! k)
  | _ => PyNone
  end.

(** ** Exceptions and outcomes *)

Inductive exn : Type :=
| GraphQLError (message : string)
| ReadOnlyException (message : string)
| ChannelSlugNotPassedException
| NoChannelException
| AttributeError (attribute : string)
| OtherException (description : string).

Inductive outcome (A : Type) : Type :=
| Return (a : A)
| Raise (e : exn).
Arguments Return {A} a.
Arguments Raise {A} e.

(** ** The request and the objects stored on it *)

Record User : Type := mkUser { pk : nat; email : string }.

(** What [request.user] evaluates to: a user of the identity provider or
    Django's [AnonymousUser()]. *)
Inductive identity : Type :=
| Authenticated (u : User)
| AnonymousUser.

Definition is_anonymous (i : identity) : bool :=
  match i with Authenticated _ => false | AnonymousUser => true end.

Record App : Type := mkApp { app_pk : nat; app_name : string }.

(** [django.utils.functional.SimpleLazyObject]: the set-up function (here a
    defunctionalised closure of type [F]) and the [_wrapped] cell, which is
    Django's [empty] marker ([None] below) until the object has been forced
    successfully. *)
Record SimpleLazyObject (F A : Type) : Type := mkLazy {
  _setupfunc : F;
  _wrapped : option A
}.
Arguments mkLazy {F A} _ _.
Arguments _setupfunc {F A} _.
Arguments _wrapped {F A} _.

(** [lambda: user()] of [JWTMiddleware.resolve]. *)
Inductive user_closure : Type := user_lambda.

(** [lambda: get_channel_slug(channel_slug)] of [ChannelMiddleware.resolve];
    the closure captures the local [channel_slug]. *)
Inductive channel_closure : Type :=
| get_channel_slug_lambda (channel_slug : pyval).

(** [lambda: get_app(auth_token)] of [app_middleware]. *)
Inductive app_closure : Type :=
| get_app_lambda (auth_token : string).

(** The attribute [request.channel_slug] holds either an ordinary value or a
    [SimpleLazyObject]; [isinstance(_, SimpleLazyObject)] tells them apart. *)
Inductive channel_attr : Type :=
| ChannelPlain (v : pyval)
| ChannelLazy (l : SimpleLazyObject channel_closure pyval).

(** The attribute [request.app]: [None] or a lazy query. *)
Inductive app_attr : Type :=
| AppNone
| AppLazy (l : SimpleLazyObject app_closure (option App)).

(** The request. Each dynamic attribute is an [option]: [None] is
    [not hasattr(request, ...)]. *)
Record request : Type := mkRequest {
  path : string;
  META : gmap string string;
  _cached_user : option (option User);
  user : option (SimpleLazyObject user_closure identity);
  channel_slug : option channel_attr;
  app : option app_attr
}.

(** ** Calls that leave the module *)

(** The value of a span tag: a string, or a boolean as for the [error]
    tag. *)
Inductive tag_value : Type :=
| TagStr (s : string)
| TagBool (b : bool).

(** [LogError sid e] is the call [span.log_kv({...})] that records the
    exception [e] (event, message, object, kind and stack) on the span. *)
Inductive event : Type :=
| CallAuthenticate
| CallDefaultChannelSlug
| CallGetApp (auth_token : string)
| StartActiveSpan (sid : nat) (operation : string)
| SetTag (sid : nat) (key : string) (value : tag_value)
| LogError (sid : nat) (e : exn)
| CloseScope (sid : nat).

Global Instance exn_eq_dec : EqDecision exn.
Proof. solve_decision. Defined.

Global Instance tag_value_eq_dec : EqDecision tag_value.
Proof. solve_decision. Defined.

Global Instance event_eq_dec : EqDecision event.
Proof. solve_decision. Defined.

Record world : Type := mkWorld {
  req : request;
  trace : list event
}.

(** The number of calls of one kind made so far. *)
Definition calls (e : event) (tr : list event) : nat :=
  length (filter (fun x => x = e) tr).

Definition is_start_span (e : event) : bool :=
  match e with StartActiveSpan _ _ => true | _ => false end.

(** ** The monad of middleware code: state and exceptions *)

Definition M (A : Type) : Type := world -> outcome A * world.

Definition ret {A} (a : A) : M A := fun w => (Return a, w).

Definition raise {A} (e : exn) : M A := fun w => (Raise e, w).

Definition bind {A B} (m : M A) (k : A -> M B) : M B :=
  fun w =>
    match m w with
    | (Return a, w') => k a w'
    | (Raise e, w') => (Raise e, w')
    end.

(** [try: m except ...: h e]; the handler re-raises what it does not
    catch. *)
Definition try_except {A} (m : M A) (h : exn -> M A) : M A :=
  fun w =>
    match m w with
    | (Return a, w') => (Return a, w')
    | (Raise e, w') => h e w'
    end.

Declare Scope py_scope.
Delimit Scope py_scope with py.
Notation "x <- c1 ;; c2" := (bind c1 (fun x => c2))
  (at level 100, c1 at next level, right associativity) : py_scope.
Notation "c1 ;;; c2" := (bind c1 (fun _ => c2))
  (at level 100, right associativity) : py_scope.
Local Open Scope py_scope.

Definition get_request : M request := fun w => (Return (req w), w).

Definition put_request (r : request) : M unit :=
  fun w => (Return tt, mkWorld r (trace w)).

Definition emit (e : event) : M unit :=
  fun w => (Return tt, mkWorld (req w) (trace w ++ [e])).

Definition get_trace : M (list event) := fun w => (Return (trace w), w).

(** Attribute assignment on the request. *)
Definition with_cached_user (v : option (option User)) (r : request) : request :=
  mkRequest (path r) (META r) v (user r) (channel_slug r) (app r).

Definition with_user (v : option (SimpleLazyObject user_closure identity))
    (r : request) : request :=
  mkRequest (path r) (META r) (_cached_user r) v (channel_slug r) (app r).

Definition with_channel_slug (v : option channel_attr) (r : request) : request :=
  mkRequest (path r) (META r) (_cached_user r) (user r) v (app r).

Definition with_app (v : option app_attr) (r : request) : request :=
  mkRequest (path r) (META r) (_cached_user r) (user r) (channel_slug r) v.

Definition set_cached_user (u : option User) : M unit :=
  r <- get_request ;; put_request (with_cached_user (Some u) r).

Definition set_user (l : SimpleLazyObject user_closure identity) : M unit :=
  r <- get_request ;; put_request (with_user (Some l) r).

Definition set_channel_slug (c : channel_attr) : M unit :=
  r <- get_request ;; put_request (with_channel_slug (Some c) r).

Definition set_app (a : app_attr) : M unit :=
  r <- get_request ;; put_request (with_app (Some a) r).

(** Worlds that differ from [w] in one attribute; used in statements. *)
Definition world_with_channel_slug (c : channel_attr) (w : world) : world :=
  mkWorld (with_channel_slug (Some c) (req w)) (trace w).

Definition world_with_app (a : app_attr) (w : world) : world :=
  mkWorld (with_app (Some a) (req w)) (trace w).

Definition world_with_user (l : SimpleLazyObject user_closure identity)
    (w : world) : world :=
  mkWorld (with_user (Some l) (req w)) (trace w).

(** ** The middleware *)

Section Middleware.

(** [django.contrib.auth.authenticate(request=request)]: the outcome of
    its [n]-th call (counting from 0) in this request. It returns a user
    or [None]; like any call it may raise instead. *)
Variable authenticate : nat -> outcome (option User).

(** [get_default_channel_slug_if_available()]: the outcome of its [n]-th
    call; it signals [ChannelSlugNotPassedException] and
    [NoChannelException] by raising them. *)
Variable get_default_channel_slug_if_available : nat -> outcome pyval.

(** [App.objects.filter(tokens__auth_token=t, is_active=True).first()] *)
Variable first_active_app : string -> option App.

(** [views.API_PATH] and [settings.ROOT_EMAIL] ([None] when the setting is
    absent or is [None]). *)
Variable API_PATH : string.
Variable ROOT_EMAIL : option string.

(** *** Authentication *)

Definition call_authenticate : M (option User) :=
  tr <- get_trace ;;
  emit CallAuthenticate ;;;
  match authenticate (calls CallAuthenticate tr) with
  | Return u => ret u
  | Raise e => raise e
  end.

(** [get_user(request)] *)
Definition get_user : M (option User) :=
  r <- get_request ;;
  match _cached_user r with
  | Some u => ret u
  | None =>
      u <- call_authenticate ;;
      set_cached_user u ;;;
      ret u
  end.

(** The local function [user()] of [JWTMiddleware.resolve]:
    [get_user(request) or AnonymousUser()]. A user object is truthy. *)
Definition user_fn : M identity :=
  u <- get_user ;;
  match u with
  | Some u => ret (Authenticated u)
  | None => ret AnonymousUser
  end.

(** [JWTMiddleware.resolve] *)
Definition JWTMiddleware_resolve {R} (next : M R) : M R :=
  set_user (mkLazy user_lambda None) ;;;
  next.

(** Forcing [request.user], which any use of the proxy does
    ([bool(user)], [user.is_anonymous], [user.email]): the set-up function
    runs if [_wrapped] is still empty and its result is stored in the
    proxy; if it raises, nothing is stored. *)
Definition force_user : M identity :=
  r <- get_request ;;
  match user r with
  | None => raise (AttributeError "user")
  | Some l =>
      match _wrapped l with
      | Some i => ret i
      | None =>
          i <- (match _setupfunc l with user_lambda => user_fn end) ;;
          r' <- get_request ;;
          put_request (with_user (Some (mkLazy (_setupfunc l) (Some i))) r') ;;;
          ret i
      end
  end.

(** *** Channel resolution *)

Definition call_default_channel_slug : M pyval :=
  tr <- get_trace ;;
  emit CallDefaultChannelSlug ;;;
  match get_default_channel_slug_if_available (calls CallDefaultChannelSlug tr) with
  | Return slug => ret slug
  | Raise e => raise e
  end.

(** The nested function [get_channel_slug(channel_slug)]. The [try]
    covers the call of the helper; its two handlers turn the first signal
    into a [GraphQLError] and the second into the result [None]; any other
    exception passes through. *)
Definition get_channel_slug (channel_slug : pyval) : M pyval :=
  if negb (truthy channel_slug) then
    try_except call_default_channel_slug
      (fun e =>
         match e with
         | ChannelSlugNotPassedException =>
             raise (GraphQLError "Argument 'channel` not passed.")
         | NoChannelException => ret PyNone
         | _ => raise e
         end)
  else ret channel_slug.

Definition is_None (v : pyval) : bool :=
  match v with PyNone => true | _ => false end.

(** Lines 40-47 of [ChannelMiddleware.resolve]: the slug the arguments of
    this field carry, [None] when they carry none. *)
Definition explicit_channel_slug (kwargs : gmap string pyval) : pyval :=
  let request_input := default (PyDict ∅) (kwargs !! "input") in
  let channel := default PyNone (kwargs !! "channel") in
  if isinstance_dict request_input && truthy request_input then
    dict_get request_input "channel_slug"
  else if negb (is_None channel) then channel
  else PyNone.

(** [hasattr(request, "channel_slug")] and
    [isinstance(request.channel_slug, SimpleLazyObject)]; the latter looks
    at the type of the proxy and does not force it. *)
Definition hasattr_channel_slug (r : request) : bool :=
  match channel_slug r with Some _ => true | None => false end.

Definition isinstance_SimpleLazyObject (r : request) : bool :=
  match channel_slug r with Some (ChannelLazy _) => true | _ => false end.

(** [ChannelMiddleware.resolve] *)
Definition ChannelMiddleware_resolve {R} (next : M R)
    (kwargs : gmap string pyval) : M R :=
  let slug := explicit_channel_slug kwargs in
  r <- get_request ;;
  (if hasattr_channel_slug r && isinstance_SimpleLazyObject r && truthy slug
   then set_channel_slug (ChannelPlain slug)
   else ret tt) ;;;
  r <- get_request ;;
  (if negb (hasattr_channel_slug r)
   then set_channel_slug (ChannelLazy (mkLazy (get_channel_slug_lambda slug) None))
   else ret tt) ;;;
  next.

(** Using [request.channel_slug] as a value: a plain value is itself; a
    proxy is forced, which runs its set-up function once and keeps the
    result in [_wrapped] (nothing is kept when it raises). *)
Definition force_channel_slug : M pyval :=
  r <- get_request ;;
  match channel_slug r with
  | None => raise (AttributeError "channel_slug")
  | Some (ChannelPlain v) => ret v
  | Some (ChannelLazy l) =>
      match _wrapped l with
      | Some v => ret v
      | None =>
          v <- (match _setupfunc l with
                | get_channel_slug_lambda seed => get_channel_slug seed
                end) ;;
          set_channel_slug (ChannelLazy (mkLazy (_setupfunc l) (Some v))) ;;;
          ret v
      end
  end.

(** *** App tokens *)

(** Header values are WSGI strings: every character is one of the 256
    Latin-1 code points, which is what [ascii] holds. [str.isspace] on
    these: TAB..CR, FS..US, SPACE, NEL and NBSP. *)
Definition py_isspace (c : ascii) : bool :=
  let n := nat_of_ascii c in
  (Nat.leb 9 n && Nat.leb n 13) || (Nat.leb 28 n && Nat.leb n 32)
  || Nat.eqb n 133 || Nat.eqb n 160.

(** [str.lower] on one Latin-1 character: A-Z and the accented capitals
    (all of 192..222 but the multiplication sign 215) move up by 32. *)
Definition py_lower_char (c : ascii) : ascii :=
  let n := nat_of_ascii c in
  if (Nat.leb 65 n && Nat.leb n 90)
     || (Nat.leb 192 n && Nat.leb n 222 && negb (Nat.eqb n 215))
  then ascii_of_nat (n + 32)
  else c.

Fixpoint py_lower (s : string) : string :=
  match s with
  | EmptyString => EmptyString
  | String c s' => String (py_lower_char c) (py_lower s')
  end.

(** [str.split()] without arguments: the maximal runs of non-space
    characters. [cur] is the run being read, if any. *)
Fixpoint split_from (cur : option string) (s : string) : list string :=
  match s with
  | EmptyString =>
      match cur with Some t => [t] | None => [] end
  | String c s' =>
      if py_isspace c then
        match cur with
        | Some t => t :: split_from None s'
        | None => split_from None s'
        end
      else split_from (Some (default EmptyString cur +:+ String c EmptyString)) s'
  end.

Definition py_split (s : string) : list string := split_from None s.

(** [get_app(auth_token)] *)
Definition get_app (auth_token : string) : M (option App) :=
  emit (CallGetApp auth_token) ;;;
  ret (first_active_app auth_token).

(** [app_middleware] *)
Definition app_middleware {R} (next : M R) : M R :=
  let app_auth_header := "HTTP_AUTHORIZATION" in
  let prefix := "bearer" in
  r <- get_request ;;
  (if String.eqb (path r) API_PATH then
     match app r with
     | None =>
         set_app AppNone ;;;
         let auth := py_split (default "" (META r !! app_auth_header)) in
         match auth with
         | [auth_prefix; auth_token] =>
             if String.eqb (py_lower auth_prefix) prefix
             then set_app (AppLazy (mkLazy (get_app_lambda auth_token) None))
             else ret tt
         | _ => ret tt
         end
     | Some _ => ret tt
     end
   else ret tt) ;;;
  next.

(** Using [request.app] as a value. *)
Definition force_app : M (option App) :=
  r <- get_request ;;
  match app r with
  | None => raise (AttributeError "app")
  | Some AppNone => ret None
  | Some (AppLazy l) =>
      match _wrapped l with
      | Some a => ret a
      | None =>
          a <- (match _setupfunc l with
                | get_app_lambda auth_token => get_app auth_token
                end) ;;
          set_app (AppLazy (mkLazy (_setupfunc l) (Some a))) ;;;
          ret a
      end
  end.

(** *** Tracing *)

(** What the middleware reads from [info: ResolveInfo]. The top-level
    selections of an operation are AST nodes of three kinds: a field and a
    fragment spread carry a [name] (of the field, of the fragment); an
    inline fragment has no [name] attribute. *)
Inductive Selection : Type :=
| Field (name : string)
| FragmentSpread (name : string)
| InlineFragment.

(** [selection.name.value]; on a node without [name] the attribute access
    raises [AttributeError]. *)
Definition name_value (selection : Selection) : outcome string :=
  match selection with
  | Field name | FragmentSpread name => Return name
  | InlineFragment => Raise (AttributeError "name")
  end.

Record OperationDefinition : Type := mkOperation {
  operation : string;
  selections : list Selection
}.

Record ResolveInfo : Type := mkInfo {
  parent_type_name : string;
  field_name : string;
  info_operation : OperationDefinition
}.

(** [core.tracing.should_trace] *)
Variable should_trace : ResolveInfo -> bool.

(** [opentracing.global_tracer().start_active_span(operation)]: the new
    scope is identified by the number of spans started before it. *)
Definition start_active_span (operation : string) : M nat :=
  tr <- get_trace ;;
  let sid := length (List.filter is_start_span tr) in
  emit (StartActiveSpan sid operation) ;;;
  ret sid.

(** [opentracing.tags.COMPONENT] and [opentracing.tags.ERROR] *)
Definition COMPONENT : string := "component".
Definition ERROR : string := "error".

(** [Span._on_error(span, exc_type, exc_val, exc_tb)] of opentracing:
    nothing without an exception; with one, the span is tagged
    [error = True] and the exception is logged on it. *)
Definition Span_on_error (sid : nat) (exc : option exn) : M unit :=
  match exc with
  | None => ret tt
  | Some e =>
      emit (SetTag sid ERROR (TagBool true)) ;;;
      emit (LogError sid e)
  end.

(** [Scope.__exit__(exc_type, exc_val, exc_tb)]: [Span._on_error] and then
    [self.close()]. It returns [None], so an exception of the body is not
    swallowed. *)
Definition Scope_exit (sid : nat) (exc : option exn) : M unit :=
  Span_on_error sid exc ;;;
  emit (CloseScope sid).

(** [with scope: body]. [__exit__] runs when the body returns (with no
    exception) and when it raises (with the exception); after it the
    outcome of the body goes on, unless [__exit__] itself raises. *)
Definition with_scope {A} (sid : nat) (body : M A) : M A :=
  fun w =>
    match body w with
    | (Return a, w') =>
        match Scope_exit sid None w' with
        | (Return _, w'') => (Return a, w'')
        | (Raise e', w'') => (Raise e', w'')
        end
    | (Raise e, w') =>
        match Scope_exit sid (Some e) w' with
        | (Return _, w'') => (Raise e, w'')
        | (Raise e', w'') => (Raise e', w'')
        end
    end.

(** [OpentracingGrapheneMiddleware.resolve] *)
Definition OpentracingGrapheneMiddleware_resolve {R} (next_ : M R)
    (info : ResolveInfo) : M R :=
  if negb (should_trace info) then next_
  else
    let operation := parent_type_name info +:+ "." +:+ field_name info in
    scope <- start_active_span operation ;;
    with_scope scope
      (emit (SetTag scope COMPONENT (TagStr "graphql")) ;;;
       emit (SetTag scope "graphql.parent_type" (TagStr (parent_type_name info))) ;;;
       emit (SetTag scope "graphql.field_name" (TagStr (field_name info))) ;;;
       next_).

(** *** Read-only mode *)

Definition ALLOWED_MUTATIONS : list string := [
  "checkoutAddPromoCode";
  "checkoutBillingAddressUpdate";
  "checkoutComplete";
  "checkoutCreate";
  "checkoutCustomerAttach";
  "checkoutCustomerDetach";
  "checkoutEmailUpdate";
  "checkoutLineDelete";
  "checkoutLinesAdd";
  "checkoutLinesUpdate";
  "checkoutRemovePromoCode";
  "checkoutPaymentCreate";
  "checkoutShippingAddressUpdate";
  "checkoutShippingMethodUpdate";
  "tokenCreate";
  "tokenVerify"
].

Definition read_only_message : string :=
  "Be aware admin pirate! API runs in read-only mode!".

(** [selection_name not in ReadOnlyMiddleware.ALLOWED_MUTATIONS] *)
Definition blocked (selection_name : string) : bool :=
  negb (bool_decide (selection_name ∈ ALLOWED_MUTATIONS)).

(** The [for] loop of [ReadOnlyMiddleware.resolve]: it goes through the
    selections in order and stops at the first one that has no name (with
    the [AttributeError] of the access) or whose name is off the list (with
    [ReadOnlyException]). [str] of a name is the name. *)
Fixpoint check_selections (sels : list Selection) : outcome unit :=
  match sels with
  | [] => Return tt
  | selection :: rest =>
      match name_value selection with
      | Raise e => Raise e
      | Return selection_name =>
          if blocked selection_name
          then Raise (ReadOnlyException read_only_message)
          else check_selections rest
      end
  end.

Definition for_selections (sels : list Selection) : M unit :=
  match check_selections sels with
  | Return _ => ret tt
  | Raise e => raise e
  end.

(** Lines 135-141: the test for users authenticated with [ROOT_EMAIL].
    [getattr(request, "user", None)] is [None] when the attribute is
    missing; otherwise [if user] forces the proxy. Both kinds of user
    object are truthy. *)
Definition root_email_bypass : M bool :=
  r <- get_request ;;
  match user r with
  | None => ret false
  | Some _ =>
      u <- force_user ;;
      match u with
      | AnonymousUser => ret false
      | Authenticated usr =>
          let user_email := email usr in
          match ROOT_EMAIL with
          | None => ret false
          | Some root_email =>
              ret (truthy (PyStr root_email) && String.eqb user_email root_email)
          end
      end
  end.

(** [ReadOnlyMiddleware.resolve] *)
Definition ReadOnlyMiddleware_resolve {R} (next_ : M R) (info : ResolveInfo) : M R :=
  if negb (String.eqb (operation (info_operation info)) "mutation") then next_
  else
    bypass <- root_email_bypass ;;
    if bypass then next_
    else
      for_selections (selections (info_operation info)) ;;;
      next_.

(** ** Notions used in the statements *)

(** The structured [input] argument, when it is present and is a
    non-empty dict. *)
Definition structured_input (kwargs : gmap string pyval) (d : gmap string pyval) : Prop :=
  kwargs !! "input" = Some (PyDict d) /\ d <> ∅.

(** The rest of the chain does not assign [request.channel_slug] once it
    holds a plain value (it may still read it). *)
Definition keeps_plain_channel_slug {R} (next : M R) : Prop :=
  forall w v,
    channel_slug (req w) = Some (ChannelPlain v) ->
    channel_slug (req (snd (next w))) = Some (ChannelPlain v).

(** The field resolutions of one request, each with its arguments and the
    rest of its chain, passing through [ChannelMiddleware.resolve] one after
    the other; a field that raises does not stop the later ones. *)
Fixpoint resolve_fields {R} (fields : list (gmap string pyval * M R))
    (w : world) : world :=
  match fields with
  | [] => w
  | (kwargs, next) :: rest =>
      resolve_fields rest (snd (ChannelMiddleware_resolve next kwargs w))
  end.






(** The scope an event of the tracer belongs to. *)
Definition mentions_scope (sid : nat) (e : event) : bool :=
  match e with
  | StartActiveSpan s _ | SetTag s _ _ | LogError s _ | CloseScope s => Nat.eqb s sid
  | _ => false
  end.

Definition scope_unused (sid : nat) (tr : list event) : bool :=
  forallb (fun e => negb (mentions_scope sid e)) tr.

(** The world in which the rest of the chain runs under a traced field:
    the span has been started and tagged. *)
Definition traced_world (info : ResolveInfo) (w : world) : world :=
  let sid := length (List.filter is_start_span (trace w)) in
  mkWorld (req w)
    (trace w ++
     [StartActiveSpan sid (parent_type_name info +:+ "." +:+ field_name info);
      SetTag sid COMPONENT (TagStr "graphql");
      SetTag sid "graphql.parent_type" (TagStr (parent_type_name info));
      SetTag sid "graphql.field_name" (TagStr (field_name info))]).

(** What the tracer sees when the [with] block of the scope [sid] is left
    with the outcome [r]: on a raise the error tag and the logged
    exception, and in both cases the closing of the scope, last. *)
Definition exit_events {R} (sid : nat) (r : outcome R) : list event :=
  match r with
  | Return _ => [CloseScope sid]
  | Raise e => [SetTag sid ERROR (TagBool true); LogError sid e; CloseScope sid]
  end.

(** The code under the span only adds to the tracer's record and leaves
    the scope [sid] alone: it neither closes nor restarts it. *)
Definition leaves_scope_alone {R} (sid : nat) (next_ : M R) (w : world) : Prop :=
  exists evs, trace (snd (next_ w)) = trace w ++ evs /\ scope_unused sid evs = true.

(** The proxy [SimpleLazyObject(lambda: get_channel_slug(seed))] before
    and after it has been forced to [v]. *)
Definition unforced_proxy (seed : pyval) : channel_attr :=
  ChannelLazy (mkLazy (get_channel_slug_lambda seed) None).

Definition forced_proxy (seed v : pyval) : channel_attr :=
  ChannelLazy (mkLazy (get_channel_slug_lambda seed) (Some v)).

(** The world after the default-channel helper has been called. *)
Definition after_default_call (w : world) : world :=
  mkWorld (req w) (trace w ++ [CallDefaultChannelSlug]).

(** The value of [u or AnonymousUser()]. *)
Definition or_AnonymousUser (u : option User) : identity :=
  match u with Some u => Authenticated u | None => AnonymousUser end.

(** ** The slug a field resolves with *)

(** [ChannelMiddleware.resolve] treats the field as carrying the explicit
    slug [slug]: on a request without a slot it installs the proxy seeded
    with [slug]; on a request whose slot holds a proxy it replaces the proxy
    by [slug] when [slug] is truthy; otherwise it leaves the request as it
    is; and then it delegates. *)
Definition resolves_with_slug {R} (next : M R) (kwargs : gmap string pyval)
    (w : world) (slug : pyval) : Prop :=
  ChannelMiddleware_resolve next kwargs w =
  next (match channel_slug (req w) with
        | None => world_with_channel_slug (unforced_proxy slug) w
        | Some (ChannelLazy _) =>
            if truthy slug then world_with_channel_slug (ChannelPlain slug) w else w
        | Some (ChannelPlain _) => w
        end).

(** The arguments [input = {channel_slug: "A"}] and [channel = "B"]. *)
Definition kwargs_A_and_B : gmap string pyval :=
  <["input" := PyDict {["channel_slug" := PyStr "A"]}]> (<["channel" := PyStr "B"]> ∅).

(** ** Chains of middleware *)

(** The three middlewares that prepare the request context, in whatever
    order the settings list them. *)
Inductive context_middleware : Type :=
| UseJWT
| UseChannel (kwargs : gmap string pyval)
| UseApp.

Definition run_context_middleware {R} (m : context_middleware) (next : M R) : M R :=
  match m with
  | UseJWT => JWTMiddleware_resolve next
  | UseChannel kwargs => ChannelMiddleware_resolve next kwargs
  | UseApp => app_middleware next
  end.

(** Each middleware receives the rest of the chain as its [next]. *)
Fixpoint context_chain {R} (ms : list context_middleware) (next : M R) : M R :=
  match ms with
  | [] => next
  | m :: ms' => run_context_middleware m (context_chain ms' next)
  end.

(** What no context middleware touches: the calls made so far, the path,
    the headers and the user cache. *)
Definition same_outside_context (w w' : world) : Prop :=
  trace w' = trace w
  /\ path (req w') = path (req w)
  /\ META (req w') = META (req w)
  /\ _cached_user (req w') = _cached_user (req w).

(** The rest of the chain does not assign [request.channel_slug] while it
    holds a proxy: afterwards the slot holds a proxy with the same set-up
    function (which may have been forced meanwhile). *)
Definition keeps_channel_proxy {R} (next : M R) : Prop :=
  forall w l,
    channel_slug (req w) = Some (ChannelLazy l) ->
    exists l',
      channel_slug (req (snd (next w))) = Some (ChannelLazy l')
      /\ _setupfunc l' = _setupfunc l.

(** A field that carries no truthy slug and whose resolver does not assign
    the slot. *)
Definition slugless_field {R} (f : gmap string pyval * M R) : Prop :=
  truthy (explicit_channel_slug (fst f)) = false /\ keeps_channel_proxy (snd f).

(** ** Words and white space of a header *)

Fixpoint has_space (s : string) : bool :=
  match s with
  | EmptyString => false
  | String c s' => py_isspace c || has_space s'
  end.

Fixpoint all_space (s : string) : bool :=
  match s with
  | EmptyString => true
  | String c s' => py_isspace c && all_space s'
  end.

(** A non-empty string without white space. *)
Definition is_word (s : string) : Prop := s <> "" /\ has_space s = false.

(** ** Who the read-only guard sees *)

(** A top-level selection that has a name, and the name is on the
    allow-list. *)
Definition allow_listed (s : Selection) : Prop :=
  exists n, name_value s = Return n /\ n ∈ ALLOWED_MUTATIONS.

(** A fragment spread read as a field of the fragment's name. *)
Definition as_field (s : Selection) : Selection :=
  match s with
  | FragmentSpread n => Field n
  | _ => s
  end.

(** The same field resolution within an operation whose top-level
    selections are [sels]. *)
Definition with_selections (sels : list Selection) (info : ResolveInfo) : ResolveInfo :=
  mkInfo (parent_type_name info) (field_name info)
         (mkOperation (operation (info_operation info)) sels).

(** The request does not resolve to the root user: it has no [user]
    attribute, or the user is anonymous, or [ROOT_EMAIL] is unset or empty,
    or the user's email differs from it. [w1] is the world after the look
    at the user. *)
Definition resolves_to_non_root (w w1 : world) : Prop :=
  (user (req w) = None /\ w1 = w)
  \/ (exists l, user (req w) = Some l
               /\ force_user w = (Return AnonymousUser, w1))
  \/ (exists l u, user (req w) = Some l
                 /\ force_user w = (Return (Authenticated u), w1)
                 /\ (ROOT_EMAIL = None \/ ROOT_EMAIL = Some ""
                     \/ exists r, ROOT_EMAIL = Some r /\ email u <> r)).

(** ** The tracer's record of scopes *)

Definition starts_scope (sid : nat) (e : event) : bool :=
  match e with StartActiveSpan s _ => Nat.eqb s sid | _ => false end.

Definition closes_scope (sid : nat) (e : event) : bool :=
  match e with CloseScope s => Nat.eqb s sid | _ => false end.

(** The number of spans started so far, which [start_active_span] gives
    to the next one. *)
Definition started (tr : list event) : nat := length (List.filter is_start_span tr).

Definition starts (sid : nat) (tr : list event) : nat :=
  length (List.filter (starts_scope sid) tr).

Definition closes (sid : nat) (tr : list event) : nat :=
  length (List.filter (closes_scope sid) tr).

(** The scopes are numbered in the order they started: each of the
    numbers below [started tr] has started once, and no event starts or
    closes a scope with a number that has not been given out yet. *)
Definition scopes_numbered (tr : list event) : Prop :=
  forall sid,
    (sid < started tr -> starts sid tr = 1)
    /\ (started tr <= sid -> starts sid tr = 0 /\ closes sid tr = 0).

(** Every scope that has started has been closed, once. *)
Definition scopes_closed (tr : list event) : Prop :=
  forall sid, sid < started tr -> closes sid tr = 1.

(** Code that is well bracketed for the tracer: run on a record with
    numbered scopes it only adds events, keeps the numbering, closes none of
    the scopes started before it, and closes each scope it starts once,
    whether it returns or raises. A resolver that does not trace is such
    code, and so is one that opens spans in [with] blocks. *)
Definition well_bracketed {R} (m : M R) : Prop :=
  forall w,
    scopes_numbered (trace w) ->
    exists evs,
      trace (snd (m w)) = trace w ++ evs
      /\ scopes_numbered (trace w ++ evs)
      /\ (forall sid, sid < started (trace w) -> closes sid evs = 0)
      /\ (forall sid,
            started (trace w) <= sid -> sid < started (trace w ++ evs) ->
            closes sid evs = 1).

(** The fields of one request, each with the rest of its chain, passing
    through the tracing interceptor one after the other. *)
Fixpoint trace_fields {R} (fields : list (ResolveInfo * M R)) (w : world) : world :=
  match fields with
  | [] => w
  | (info, next_) :: rest =>
      trace_fields rest (snd (OpentracingGrapheneMiddleware_resolve next_ info w))
  end.

(** ** Sample requests *)

Definition sample_request : request :=
  mkRequest "/graphql/" ∅ None None None None.

Definition sample_world : world := mkWorld sample_request [].

(** A request whose slot holds the proxy installed by a field without a
    slug, before and after something has forced it to ["X"]. *)
Definition world_unforced : world :=
  world_with_channel_slug (unforced_proxy PyNone) sample_world.

Definition world_forced : world :=
  world_with_channel_slug (forced_proxy PyNone (PyStr "X")) sample_world.

Definition kwargs_channel (c : string) : gmap string pyval :=
  {["channel" := PyStr c]}.

Definition kwargs_input (c : string) : gmap string pyval :=
  {["input" := PyDict {["channel_slug" := PyStr c]}]}.

Definition alice : User := mkUser 1 "root@example.com".

Definition authenticate_alice : nat -> outcome (option User) :=
  fun _ => Return (Some alice).

Definition authenticate_nobody : nat -> outcome (option User) :=
  fun _ => Return None.

(** An identity provider that rejects the token by raising, as for an
    expired signature. *)
Definition authenticate_expired : nat -> outcome (option User) :=
  fun _ => Raise (OtherException "Signature has expired").

Definition helper_must_pass : nat -> outcome pyval :=
  fun _ => Raise ChannelSlugNotPassedException.

Definition helper_no_channel : nat -> outcome pyval :=
  fun _ => Raise NoChannelException.

Definition helper_default : nat -> outcome pyval :=
  fun _ => Return (PyStr "default-channel").

Definition mutation_of (names : list string) : ResolveInfo :=
  mkInfo "Mutation" (hd "" names) (mkOperation "mutation" (map Field names)).

(** A mutation whose only top-level selection is a spread of the fragment
    [name]. *)
Definition mutation_of_spread (name : string) : ResolveInfo :=
  mkInfo "Mutation" "productCreate" (mkOperation "mutation" [FragmentSpread name]).

(** A mutation whose first top-level selection is an inline fragment. *)
Definition mutation_with_inline_fragment (names : list string) : ResolveInfo :=
  mkInfo "Mutation" (hd "" names)
         (mkOperation "mutation" (InlineFragment :: map Field names)).

Definition query_products : ResolveInfo :=
  mkInfo "Query" "products" (mkOperation "query" [Field "products"]).

Definition world_with_header (request_path header : string) : world :=
  mkWorld (mkRequest request_path {["HTTP_AUTHORIZATION" := header]} None None None None) [].

Definition no_apps : string -> option App := fun _ => None.

Definition world_of_alice : world :=
  world_with_user (mkLazy user_lambda None) sample_world.

Definition failing_resolver : M unit := raise (OtherException "resolver failed").

(** A helper that asks for the argument on its first call and has a
    default from the second call on. *)
Definition helper_flaky : nat -> outcome pyval :=
  fun n =>
    match n with
    | O => Raise ChannelSlugNotPassedException
    | S _ => Return (PyStr "default-channel")
    end.

Definition kwargs_input_without_slug : gmap string pyval :=
  <["input" := PyDict {["name" := PyStr "x"]}]> (kwargs_channel "B").

(** A user without an email, and a provider that returns it. *)
Definition nameless : User := mkUser 2 "".

Definition authenticate_nameless : nat -> outcome (option User) :=
  fun _ => Return (Some nameless).

Definition shop_app : App := mkApp 7 "shop".

Definition apps_with_abc : string -> option App :=
  fun t => if String.eqb t "abc" then Some shop_app else None.

(** ** Properties *)

(** Unfolds the plumbing of the monad so that a computation applied to a
    world reduces. *)
Ltac run :=
  unfold bind, ret, raise, try_except, get_request, put_request,
    get_trace, emit, set_cached_user, set_user, set_channel_slug, set_app,
    world_with_channel_slug, world_with_app, world_with_user in *;
  cbn [req trace path META _cached_user user channel_slug app
       with_cached_user with_user with_channel_slug with_app
       _setupfunc _wrapped fst snd] in *.

Lemma truthy_dict_nonempty (d : gmap string pyval) :
  d <> ∅ -> truthy (PyDict d) = true.
Proof.
  intros Hd. cbn. destruct (size d) eqn:Hsize; [|reflexivity].
  apply map_size_empty_iff in Hsize. contradiction.
Qed.

Lemma truthy_dict_empty : truthy (PyDict ∅) = false.
Proof. reflexivity. Qed.

(** *** Which slug the arguments carry *)

Lemma explicit_slug_from_input kwargs d :
  structured_input kwargs d ->
  explicit_channel_slug kwargs = default PyNone (d !! "channel_slug").
Proof.
  intros [Hin Hd]. unfold explicit_channel_slug. rewrite Hin. cbn [from_option id isinstance_dict andb].
  rewrite (truthy_dict_nonempty d Hd). reflexivity.
Qed.

Lemma explicit_slug_without_input kwargs :
  (forall d, ~ structured_input kwargs d) ->
  explicit_channel_slug kwargs = default PyNone (kwargs !! "channel").
Proof.
  intros Hno. unfold explicit_channel_slug.
  destruct (kwargs !! "input") as [v|] eqn:Hin; cbn [from_option id].
  - destruct v; cbn [isinstance_dict andb];
      try (destruct (default PyNone (kwargs !! "channel")); reflexivity).
    destruct (truthy (PyDict d)) eqn:Ht.
    + exfalso. apply (Hno d). split; [exact Hin|].
      intros ->. rewrite truthy_dict_empty in Ht. discriminate.
    + cbn. destruct (default PyNone (kwargs !! "channel")); reflexivity.
  - cbn. destruct (default PyNone (kwargs !! "channel")); reflexivity.
Qed.

(** *** What [ChannelMiddleware.resolve] does to the slot *)

Lemma channel_resolve_unset {R} (next : M R) kwargs w :
  channel_slug (req w) = None ->
  ChannelMiddleware_resolve next kwargs w =
  next (world_with_channel_slug
          (ChannelLazy (mkLazy (get_channel_slug_lambda (explicit_channel_slug kwargs)) None))
          w).
Proof.
  intros Hslot. unfold ChannelMiddleware_resolve, hasattr_channel_slug,
    isinstance_SimpleLazyObject. run. rewrite Hslot. cbn. rewrite Hslot. cbn.
  reflexivity.
Qed.

Lemma channel_resolve_plain {R} (next : M R) kwargs w v :
  channel_slug (req w) = Some (ChannelPlain v) ->
  ChannelMiddleware_resolve next kwargs w = next w.
Proof.
  intros Hslot. unfold ChannelMiddleware_resolve, hasattr_channel_slug,
    isinstance_SimpleLazyObject. run. rewrite Hslot. cbn. rewrite Hslot. cbn.
  reflexivity.
Qed.

Lemma channel_resolve_lazy_explicit {R} (next : M R) kwargs w l :
  channel_slug (req w) = Some (ChannelLazy l) ->
  truthy (explicit_channel_slug kwargs) = true ->
  ChannelMiddleware_resolve next kwargs w =
  next (world_with_channel_slug (ChannelPlain (explicit_channel_slug kwargs)) w).
Proof.
  intros Hslot Ht. unfold ChannelMiddleware_resolve, hasattr_channel_slug,
    isinstance_SimpleLazyObject. run. rewrite Hslot, Ht. cbn.
  reflexivity.
Qed.

Lemma channel_resolve_falsy {R} (next : M R) kwargs w a :
  channel_slug (req w) = Some a ->
  truthy (explicit_channel_slug kwargs) = false ->
  ChannelMiddleware_resolve next kwargs w = next w.
Proof.
  intros Hslot Ht. unfold ChannelMiddleware_resolve, hasattr_channel_slug,
    isinstance_SimpleLazyObject. run. rewrite Hslot, Ht.
  rewrite andb_false_r. cbn. rewrite Hslot. reflexivity.
Qed.

Lemma force_plain w v :
  channel_slug (req w) = Some (ChannelPlain v) ->
  force_channel_slug w = (Return v, w).
Proof. intros Hslot. unfold force_channel_slug. run. rewrite Hslot. reflexivity. Qed.

Lemma force_forced w l v :
  channel_slug (req w) = Some (ChannelLazy l) ->
  _wrapped l = Some v ->
  force_channel_slug w = (Return v, w).
Proof.
  intros Hslot Hw. unfold force_channel_slug. run. rewrite Hslot, Hw. reflexivity.
Qed.

(** C1 (as the code has it). When the slot holds a [SimpleLazyObject]
    (forced or not) and the field carries a truthy explicit slug, the
    middleware overwrites the slot with that slug as a plain value, not with
    a new lazy computation, and a later read of the slot yields the new
    slug; when the slot holds a plain value, the middleware leaves it and a
    later read yields the old value. *)
Theorem channel_replacement_rule {R} (next : M R) kwargs w a :
  channel_slug (req w) = Some a ->
  truthy (explicit_channel_slug kwargs) = true ->
  let slug := explicit_channel_slug kwargs in
  match a with
  | ChannelLazy _ =>
      let w1 := world_with_channel_slug (ChannelPlain slug) w in
      ChannelMiddleware_resolve next kwargs w = next w1
      /\ force_channel_slug w1 = (Return slug, w1)
  | ChannelPlain v =>
      ChannelMiddleware_resolve next kwargs w = next w
      /\ force_channel_slug w = (Return v, w)
  end.
Proof.
  intros Hslot Ht slug. destruct a as [v|l].
  - split.
    + eapply channel_resolve_plain, Hslot.
    + apply force_plain, Hslot.
  - split.
    + apply (channel_resolve_lazy_explicit next kwargs w l Hslot Ht).
    + apply force_plain. reflexivity.
Qed.

(** *** Forcing the installed proxy *)

Lemma force_unforced_truthy w seed :
  channel_slug (req w) = Some (unforced_proxy seed) ->
  truthy seed = true ->
  force_channel_slug w =
  (Return seed, world_with_channel_slug (forced_proxy seed seed) w).
Proof.
  intros Hslot Ht. unfold force_channel_slug, get_channel_slug. run.
  rewrite Hslot. cbn. rewrite Ht. reflexivity.
Qed.

Lemma force_unforced_falsy w seed :
  channel_slug (req w) = Some (unforced_proxy seed) ->
  truthy seed = false ->
  force_channel_slug w =
  match get_default_channel_slug_if_available (calls CallDefaultChannelSlug (trace w)) with
  | Return slug =>
      (Return slug,
       world_with_channel_slug (forced_proxy seed slug) (after_default_call w))
  | Raise ChannelSlugNotPassedException =>
      (Raise (GraphQLError "Argument 'channel` not passed."), after_default_call w)
  | Raise NoChannelException =>
      (Return PyNone,
       world_with_channel_slug (forced_proxy seed PyNone) (after_default_call w))
  | Raise e => (Raise e, after_default_call w)
  end.
Proof.
  intros Hslot Ht.
  unfold force_channel_slug, get_channel_slug, call_default_channel_slug, after_default_call.
  run. rewrite Hslot. cbn. rewrite Ht. cbn.
  destruct (get_default_channel_slug_if_available _) as [slug|[]]; reflexivity.
Qed.

Lemma channel_resolve_with_explicit {R} (next : M R) kwargs w :
  resolves_with_slug next kwargs w (explicit_channel_slug kwargs).
Proof.
  unfold resolves_with_slug.
  destruct (channel_slug (req w)) as [[v|l]|] eqn:Hslot.
  - apply (channel_resolve_plain next kwargs w v Hslot).
  - destruct (truthy (explicit_channel_slug kwargs)) eqn:Ht.
    + apply (channel_resolve_lazy_explicit next kwargs w l Hslot Ht).
    + apply (channel_resolve_falsy next kwargs w _ Hslot Ht).
  - apply (channel_resolve_unset next kwargs w Hslot).
Qed.

(** C5. The slug that [ChannelMiddleware.resolve] acts on (seeds the new
    proxy with, or replaces an existing proxy by) is: the [channel_slug]
    entry of a present, non-empty [input] dict (absent when the dict has no
    such entry); otherwise the [channel] argument when it is present and not
    [None]; otherwise absent. With [input = {channel_slug: "A"}] and
    [channel = "B"] on a request without a slot, the middleware installs the
    proxy seeded with ["A"] and the slot resolves to ["A"]. *)
Theorem channel_slug_priority {R} (next : M R) (kwargs : gmap string pyval) w :
  (forall d, structured_input kwargs d ->
     resolves_with_slug next kwargs w (default PyNone (d !! "channel_slug")))
  /\ (forall c, (forall d, ~ structured_input kwargs d) ->
       kwargs !! "channel" = Some c -> c <> PyNone ->
       resolves_with_slug next kwargs w c)
  /\ ((forall d, ~ structured_input kwargs d) ->
      kwargs !! "channel" = None \/ kwargs !! "channel" = Some PyNone ->
      resolves_with_slug next kwargs w PyNone)
  /\ (channel_slug (req w) = None ->
      ChannelMiddleware_resolve next kwargs_A_and_B w =
        next (world_with_channel_slug (unforced_proxy (PyStr "A")) w)
      /\ force_channel_slug (world_with_channel_slug (unforced_proxy (PyStr "A")) w) =
         (Return (PyStr "A"),
          world_with_channel_slug (forced_proxy (PyStr "A") (PyStr "A")) w)).
Proof.
  pose proof (channel_resolve_with_explicit next kwargs w) as Hk.
  split; [|split; [|split]].
  - intros d Hd. rewrite <- (explicit_slug_from_input kwargs d Hd). exact Hk.
  - intros c Hno Hc _. rewrite (explicit_slug_without_input _ Hno), Hc in Hk. exact Hk.
  - intros Hno [Hc|Hc]; rewrite (explicit_slug_without_input _ Hno), Hc in Hk; exact Hk.
  - intros Hslot. split.
    + rewrite (channel_resolve_unset next kwargs_A_and_B w Hslot). reflexivity.
    + rewrite (force_unforced_truthy
                 (world_with_channel_slug (unforced_proxy (PyStr "A")) w)
                 (PyStr "A") eq_refl eq_refl).
      reflexivity.
Qed.

(** C4. A slot installed by a field that carries no explicit slug is a
    proxy whose forcing calls the default-channel helper: when the helper
    signals that the slug must be passed, forcing raises the query error
    [GraphQLError("Argument 'channel` not passed.")] and the proxy stays
    unforced; when it signals that there is no channel, forcing yields
    [None]; when it returns a slug, forcing yields that slug. *)
Theorem missing_channel_resolution {R} (next : M R) kwargs w :
  channel_slug (req w) = None ->
  explicit_channel_slug kwargs = PyNone ->
  ChannelMiddleware_resolve next kwargs w =
    next (world_with_channel_slug (unforced_proxy PyNone) w)
  /\ forall w',
      channel_slug (req w') = Some (unforced_proxy PyNone) ->
      force_channel_slug w' =
      match get_default_channel_slug_if_available
              (calls CallDefaultChannelSlug (trace w')) with
      | Raise ChannelSlugNotPassedException =>
          (Raise (GraphQLError "Argument 'channel` not passed."), after_default_call w')
      | Raise NoChannelException =>
          (Return PyNone,
           world_with_channel_slug (forced_proxy PyNone PyNone) (after_default_call w'))
      | Raise e => (Raise e, after_default_call w')
      | Return slug =>
          (Return slug,
           world_with_channel_slug (forced_proxy PyNone slug) (after_default_call w'))
      end.
Proof.
  intros Hslot Hexp. split.
  - rewrite (channel_resolve_unset next kwargs w Hslot), Hexp. reflexivity.
  - intros w' Hslot'. rewrite (force_unforced_falsy w' PyNone Hslot' eq_refl).
    destruct (get_default_channel_slug_if_available _) as [slug|[]]; reflexivity.
Qed.

(** C10. A field whose explicit slug is the empty string never replaces an
    existing slot; on a request without a slot it installs a proxy whose
    forcing goes to the default-channel helper exactly as a proxy seeded
    with [None] does, so the result is the helper's and not the empty
    seed. Both [input = {channel_slug: ""}] and [channel = ""] are such
    fields. *)
Theorem empty_slug_is_absent {R} (next : M R) kwargs w :
  explicit_channel_slug kwargs = PyStr "" ->
  (forall a, channel_slug (req w) = Some a ->
     ChannelMiddleware_resolve next kwargs w = next w)
  /\ (channel_slug (req w) = None ->
      ChannelMiddleware_resolve next kwargs w =
        next (world_with_channel_slug (unforced_proxy (PyStr "")) w))
  /\ (forall w',
       channel_slug (req w') = Some (unforced_proxy (PyStr "")) ->
       force_channel_slug w' =
       match get_default_channel_slug_if_available
               (calls CallDefaultChannelSlug (trace w')) with
       | Return slug =>
           (Return slug,
            world_with_channel_slug (forced_proxy (PyStr "") slug) (after_default_call w'))
       | Raise ChannelSlugNotPassedException =>
           (Raise (GraphQLError "Argument 'channel` not passed."), after_default_call w')
       | Raise NoChannelException =>
           (Return PyNone,
            world_with_channel_slug (forced_proxy (PyStr "") PyNone) (after_default_call w'))
       | Raise e => (Raise e, after_default_call w')
       end)
  /\ get_channel_slug (PyStr "") = get_channel_slug PyNone
  /\ explicit_channel_slug {["input" := PyDict {["channel_slug" := PyStr ""]}]} = PyStr ""
  /\ explicit_channel_slug {["channel" := PyStr ""]} = PyStr "".
Proof.
  intros Hexp. split; [|split; [|split; [|split; [|split]]]].
  - intros a Hslot. apply (channel_resolve_falsy next kwargs w a Hslot).
    rewrite Hexp. reflexivity.
  - intros Hslot. rewrite (channel_resolve_unset next kwargs w Hslot), Hexp. reflexivity.
  - intros w' Hslot'. apply (force_unforced_falsy w' (PyStr "") Hslot' eq_refl).
  - reflexivity.
  - vm_compute. reflexivity.
  - vm_compute. reflexivity.
Qed.

(** *** Later fields of the request *)

Lemma resolve_fields_keep_plain {R} (fields : list (gmap string pyval * M R)) :
  Forall (fun f => keeps_plain_channel_slug (snd f)) fields ->
  forall w v,
    channel_slug (req w) = Some (ChannelPlain v) ->
    channel_slug (req (resolve_fields fields w)) = Some (ChannelPlain v).
Proof.
  induction 1 as [|[kwargs next] rest Hnext _ IH]; intros w v Hslot.
  - exact Hslot.
  - cbn [resolve_fields]. apply IH.
    rewrite (channel_resolve_plain next kwargs w v Hslot).
    apply (Hnext w v Hslot).
Qed.

(** C9. After the middleware has replaced a proxy by an explicit slug the
    slot holds a plain value: through every later field of the request,
    whatever slugs those fields carry, the slot is not a [SimpleLazyObject],
    is not replaced again, and reads as the slug of the first
    replacement. *)
Theorem first_replacement_wins {R} kwargs (next : M R) later w l :
  channel_slug (req w) = Some (ChannelLazy l) ->
  truthy (explicit_channel_slug kwargs) = true ->
  keeps_plain_channel_slug next ->
  Forall (fun f => keeps_plain_channel_slug (snd f)) later ->
  let w' := resolve_fields ((kwargs, next) :: later) w in
  channel_slug (req w') = Some (ChannelPlain (explicit_channel_slug kwargs))
  /\ isinstance_SimpleLazyObject (req w') = false
  /\ force_channel_slug w' = (Return (explicit_channel_slug kwargs), w').
Proof.
  intros Hslot Ht Hnext Hlater w'.
  assert (Hplain : channel_slug (req w') = Some (ChannelPlain (explicit_channel_slug kwargs))).
  { subst w'. cbn [resolve_fields].
    apply (resolve_fields_keep_plain later Hlater).
    rewrite (channel_resolve_lazy_explicit next kwargs w l Hslot Ht).
    apply Hnext. reflexivity. }
  split; [exact Hplain|]. split.
  - unfold isinstance_SimpleLazyObject. rewrite Hplain. reflexivity.
  - apply force_plain, Hplain.
Qed.

(** *** The user resolver *)

Lemma calls_snoc e tr : calls e (tr ++ [e]) = S (calls e tr).
Proof.
  unfold calls. rewrite filter_app, length_app. cbn.
  rewrite decide_True by reflexivity. cbn. lia.
Qed.

Lemma get_user_cached w u :
  _cached_user (req w) = Some u -> get_user w = (Return u, w).
Proof. intros Hc. unfold get_user. run. rewrite Hc. reflexivity. Qed.

Lemma get_user_uncached w :
  _cached_user (req w) = None ->
  get_user w =
  match authenticate (calls CallAuthenticate (trace w)) with
  | Return u =>
      (Return u,
       mkWorld (with_cached_user (Some u) (req w)) (trace w ++ [CallAuthenticate]))
  | Raise e => (Raise e, mkWorld (req w) (trace w ++ [CallAuthenticate]))
  end.
Proof.
  intros Hc. unfold get_user, call_authenticate. run. rewrite Hc. cbn.
  destruct (authenticate _); reflexivity.
Qed.


Lemma force_user_forced w l i :
  user (req w) = Some l -> _wrapped l = Some i -> force_user w = (Return i, w).
Proof. intros Hu Hw. unfold force_user. run. rewrite Hu, Hw. reflexivity. Qed.

Lemma force_user_unforced w l :
  user (req w) = Some l -> _wrapped l = None ->
  force_user w =
  match get_user w with
  | (Return u, w') =>
      (Return (or_AnonymousUser u),
       mkWorld (with_user (Some (mkLazy (_setupfunc l) (Some (or_AnonymousUser u)))) (req w'))
               (trace w'))
  | (Raise e, w') => (Raise e, w')
  end.
Proof.
  intros Hu Hw. unfold force_user, user_fn. run. rewrite Hu, Hw.
  destruct (_setupfunc l). destruct (get_user w) as [[[u|]|e] w']; reflexivity.
Qed.







(** *** App tokens *)

Lemma app_middleware_other_path {R} (next : M R) w :
  path (req w) <> API_PATH -> app_middleware next w = next w.
Proof.
  intros Hp. unfold app_middleware. run.
  destruct (String.eqb_spec (path (req w)) API_PATH) as [E|_]; [contradiction|].
  reflexivity.
Qed.

Lemma app_middleware_set {R} (next : M R) w a :
  app (req w) = Some a -> app_middleware next w = next w.
Proof.
  intros Ha. unfold app_middleware. run. rewrite Ha.
  destruct (String.eqb _ _); reflexivity.
Qed.

Lemma app_middleware_bearer {R} (next : M R) w auth_prefix auth_token :
  path (req w) = API_PATH -> app (req w) = None ->
  py_split (default "" (META (req w) !! "HTTP_AUTHORIZATION")) = [auth_prefix; auth_token] ->
  py_lower auth_prefix = "bearer" ->
  app_middleware next w =
  next (world_with_app (AppLazy (mkLazy (get_app_lambda auth_token) None)) w).
Proof.
  intros Hp Ha Hs Hl. unfold app_middleware. run.
  rewrite Hp, String.eqb_refl, Ha. cbn. rewrite Hs, Hl. reflexivity.
Qed.

Lemma app_middleware_no_bearer {R} (next : M R) w :
  path (req w) = API_PATH -> app (req w) = None ->
  (forall auth_prefix auth_token,
     py_split (default "" (META (req w) !! "HTTP_AUTHORIZATION")) = [auth_prefix; auth_token] ->
     py_lower auth_prefix <> "bearer") ->
  app_middleware next w = next (world_with_app AppNone w).
Proof.
  intros Hp Ha Hno. unfold app_middleware. run.
  rewrite Hp, String.eqb_refl, Ha. cbn.
  destruct (py_split _) as [|p [|t [|x rest]]] eqn:Hs; try reflexivity.
  destruct (String.eqb_spec (py_lower p) "bearer") as [E|_]; [|reflexivity].
  destruct (Hno p t eq_refl E).
Qed.

(** C6. Off the API path the middleware only delegates and the request is
    left as it was, so an unset [app] stays unset. On the API path with
    [app] unset: a header that splits into exactly two tokens, the first
    equal to "bearer" up to case, makes [app] a proxy of the query for the
    first active app with that token, which runs when the proxy is forced;
    any other header (and a missing one) makes [app] plain [None], which is
    read without any query. No query is made by the middleware itself, and
    a request whose [app] is set is not touched again. *)
Theorem app_resolution {R} (next : M R) w :
  let header := default "" (META (req w) !! "HTTP_AUTHORIZATION") in
  (path (req w) <> API_PATH -> app_middleware next w = next w)
  /\ (forall a, app (req w) = Some a -> app_middleware next w = next w)
  /\ (path (req w) = API_PATH -> app (req w) = None ->
      forall auth_prefix auth_token,
        py_split header = [auth_prefix; auth_token] ->
        py_lower auth_prefix = "bearer" ->
        app_middleware next w =
        next (world_with_app (AppLazy (mkLazy (get_app_lambda auth_token) None)) w))
  /\ (path (req w) = API_PATH -> app (req w) = None ->
      (forall auth_prefix auth_token,
         py_split header = [auth_prefix; auth_token] ->
         py_lower auth_prefix <> "bearer") ->
      app_middleware next w = next (world_with_app AppNone w))
  /\ (forall w' auth_token,
        app (req w') = Some (AppLazy (mkLazy (get_app_lambda auth_token) None)) ->
        force_app w' =
        (Return (first_active_app auth_token),
         world_with_app
           (AppLazy (mkLazy (get_app_lambda auth_token) (Some (first_active_app auth_token))))
           (mkWorld (req w') (trace w' ++ [CallGetApp auth_token]))))
  /\ (forall w', app (req w') = Some AppNone -> force_app w' = (Return None, w')).
Proof.
  intros header. split; [|split; [|split; [|split; [|split]]]].
  - apply app_middleware_other_path.
  - intros a. apply app_middleware_set.
  - intros Hp Ha p t. apply app_middleware_bearer; assumption.
  - intros Hp Ha. apply app_middleware_no_bearer; assumption.
  - intros w' t Ha. unfold force_app, get_app. run. rewrite Ha. reflexivity.
  - intros w' Ha. unfold force_app. run. rewrite Ha. reflexivity.
Qed.

(** *** Read-only mode *)

Lemma blocked_true n : blocked n = true <-> n ∉ ALLOWED_MUTATIONS.
Proof.
  unfold blocked. rewrite negb_true_iff, bool_decide_eq_false. reflexivity.
Qed.

Lemma blocked_false n : blocked n = false <-> n ∈ ALLOWED_MUTATIONS.
Proof.
  unfold blocked. rewrite negb_false_iff, bool_decide_eq_true. reflexivity.
Qed.

Lemma check_selections_skip pre rest :
  Forall allow_listed pre ->
  check_selections (pre ++ rest) = check_selections rest.
Proof.
  induction 1 as [|s pre (n & Hn & Hin) _ IH]; [reflexivity|].
  rewrite <- app_comm_cons. cbn [check_selections]. rewrite Hn.
  apply blocked_false in Hin. rewrite Hin. exact IH.
Qed.

Lemma check_selections_allowed sels :
  Forall allow_listed sels -> check_selections sels = Return tt.
Proof.
  intros Hall. rewrite <- (app_nil_r sels). apply (check_selections_skip sels [] Hall).
Qed.

Lemma check_selections_blocked_head bad n rest :
  name_value bad = Return n -> n ∉ ALLOWED_MUTATIONS ->
  check_selections (bad :: rest) = Raise (ReadOnlyException read_only_message).
Proof.
  intros Hn Hout. cbn [check_selections]. rewrite Hn.
  apply blocked_true in Hout. rewrite Hout. reflexivity.
Qed.

Lemma check_selections_nameless_head s e rest :
  name_value s = Raise e -> check_selections (s :: rest) = Raise e.
Proof. intros Hn. cbn [check_selections]. rewrite Hn. reflexivity. Qed.

Lemma fields_allow_listed names :
  Forall (fun n => n ∈ ALLOWED_MUTATIONS) names -> Forall allow_listed (map Field names).
Proof.
  induction 1 as [|n names Hn _ IH]; cbn [map]; constructor; [|exact IH].
  exists n. split; [reflexivity|exact Hn].
Qed.

(** A list of names with a name off the allow-list has a first such
    name. *)
Lemma first_blocked (names : list string) :
  Exists (fun n => n ∉ ALLOWED_MUTATIONS) names ->
  exists pre bad rest,
    names = pre ++ bad :: rest
    /\ Forall (fun n => n ∈ ALLOWED_MUTATIONS) pre
    /\ bad ∉ ALLOWED_MUTATIONS.
Proof.
  induction names as [|n names IH]; intros Hex.
  - inversion Hex.
  - destruct (decide (n ∈ ALLOWED_MUTATIONS)) as [Hin|Hout].
    + inversion Hex as [? ? Hs|? ? Hrest]; subst; [contradiction|].
      destruct (IH Hrest) as (pre & bad & rest & -> & Hpre & Hbad).
      exists (n :: pre), bad, rest. repeat split; [constructor; assumption|exact Hbad].
    + exists [], n, names. repeat split; [constructor|exact Hout].
Qed.

Lemma check_fields_first_blocked pre bad rest :
  Forall (fun n => n ∈ ALLOWED_MUTATIONS) pre ->
  bad ∉ ALLOWED_MUTATIONS ->
  check_selections (map Field pre ++ Field bad :: rest) =
  Raise (ReadOnlyException read_only_message).
Proof.
  intros Hpre Hbad. rewrite (check_selections_skip _ _ (fields_allow_listed pre Hpre)).
  apply (check_selections_blocked_head (Field bad) bad rest eq_refl Hbad).
Qed.

Lemma check_fields_blocked names :
  Exists (fun n => n ∉ ALLOWED_MUTATIONS) names ->
  check_selections (map Field names) = Raise (ReadOnlyException read_only_message).
Proof.
  intros Hex. destruct (first_blocked names Hex) as (pre & bad & rest & -> & Hpre & Hbad).
  rewrite map_app. cbn [map]. apply check_fields_first_blocked; assumption.
Qed.

Lemma resolve_mutation_not_bypassed {R} (next_ : M R) info w w1 :
  operation (info_operation info) = "mutation" ->
  root_email_bypass w = (Return false, w1) ->
  ReadOnlyMiddleware_resolve next_ info w =
  match check_selections (selections (info_operation info)) with
  | Return _ => next_ w1
  | Raise e => (Raise e, w1)
  end.
Proof.
  intros Hop Hby. unfold ReadOnlyMiddleware_resolve, for_selections.
  rewrite Hop, String.eqb_refl. cbn [negb].
  unfold bind at 1. rewrite Hby. run.
  destruct (check_selections _); reflexivity.
Qed.

(** C3 (as the code has it). For a mutation on which the root-email test
    has run without raising and answered no, and whose top-level selections
    are fields: when some field name is off the allow-list the guard raises
    [ReadOnlyException], whatever field is being resolved and whatever
    other names are selected, and the rest of the chain does not run; the
    loop stops at the first name off the list, so that whatever follows it
    (a node of any kind) has no part in the outcome; when every name is on
    the list the guard delegates. *)
Theorem read_only_guard {R} (next_ : M R) info w w1 :
  operation (info_operation info) = "mutation" ->
  root_email_bypass w = (Return false, w1) ->
  let sels := selections (info_operation info) in
  (forall names,
     sels = map Field names ->
     Exists (fun n => n ∉ ALLOWED_MUTATIONS) names ->
     ReadOnlyMiddleware_resolve next_ info w =
     (Raise (ReadOnlyException read_only_message), w1))
  /\ (forall pre bad rest,
        sels = map Field pre ++ Field bad :: rest ->
        Forall (fun n => n ∈ ALLOWED_MUTATIONS) pre ->
        bad ∉ ALLOWED_MUTATIONS ->
        ReadOnlyMiddleware_resolve next_ info w =
        (Raise (ReadOnlyException read_only_message), w1))
  /\ (forall names,
        sels = map Field names ->
        Forall (fun n => n ∈ ALLOWED_MUTATIONS) names ->
        ReadOnlyMiddleware_resolve next_ info w = next_ w1).
Proof.
  intros Hop Hby sels.
  rewrite (resolve_mutation_not_bypassed next_ info w w1 Hop Hby). fold sels.
  split; [|split].
  - intros names -> Hex. rewrite (check_fields_blocked names Hex). reflexivity.
  - intros pre bad rest -> Hpre Hbad.
    rewrite (check_fields_first_blocked pre bad rest Hpre Hbad). reflexivity.
  - intros names -> Hall.
    rewrite (check_selections_allowed _ (fields_allow_listed names Hall)). reflexivity.
Qed.

(** C7. A query or subscription passes the guard untouched. For a
    mutation, when [request.user] resolves to a user that is not anonymous
    and whose email equals a non-empty [ROOT_EMAIL], the guard delegates
    without looking at the selections. *)
Theorem root_email_bypass_rule {R} (next_ : M R) info w :
  (operation (info_operation info) <> "mutation" ->
   ReadOnlyMiddleware_resolve next_ info w = next_ w)
  /\ (operation (info_operation info) = "mutation" ->
      forall l u w1 root_email,
        user (req w) = Some l ->
        force_user w = (Return (Authenticated u), w1) ->
        ROOT_EMAIL = Some root_email ->
        root_email <> "" ->
        email u = root_email ->
        ReadOnlyMiddleware_resolve next_ info w = next_ w1).
Proof.
  split.
  - intros Hop. unfold ReadOnlyMiddleware_resolve.
    destruct (String.eqb_spec (operation (info_operation info)) "mutation") as [E|_];
      [contradiction|reflexivity].
  - intros Hop l u w1 root_email Hu Hf Hroot Hne Hemail.
    unfold ReadOnlyMiddleware_resolve, root_email_bypass.
    rewrite Hop, Hroot, String.eqb_refl. cbn [negb].
    run. rewrite Hu, Hf, Hemail, String.eqb_refl.
    destruct root_email; [contradiction|reflexivity].
Qed.

(** *** Tracing *)

Lemma calls_app e tr tr' : calls e (tr ++ tr') = calls e tr + calls e tr'.
Proof. unfold calls. rewrite filter_app, length_app. reflexivity. Qed.

Lemma calls_unused sid e tr :
  scope_unused sid tr = true -> mentions_scope sid e = true -> calls e tr = 0.
Proof.
  intros Hun He. induction tr as [|x tr IH]; [reflexivity|].
  cbn in Hun. apply andb_true_iff in Hun as [Hx Htr].
  unfold calls. rewrite filter_cons. destruct (decide (x = e)) as [->|_].
  - rewrite He in Hx. discriminate.
  - apply IH, Htr.
Qed.

Lemma traced_resolve_unfolds {R} (next_ : M R) info w :
  should_trace info = true ->
  OpentracingGrapheneMiddleware_resolve next_ info w =
  (fst (next_ (traced_world info w)),
   mkWorld (req (snd (next_ (traced_world info w))))
           (trace (snd (next_ (traced_world info w)))
            ++ exit_events (length (List.filter is_start_span (trace w)))
                           (fst (next_ (traced_world info w))))).
Proof.
  intros Hst.
  unfold OpentracingGrapheneMiddleware_resolve, start_active_span, with_scope,
    Scope_exit, Span_on_error.
  rewrite Hst. run. cbn [negb].
  repeat rewrite <- app_assoc. cbn [app].
  change (mkWorld (req w) _) with (traced_world info w).
  destruct (next_ (traced_world info w)) as [[r|e] w']; cbn [fst snd exit_events].
  - reflexivity.
  - repeat rewrite <- app_assoc. reflexivity.
Qed.

Lemma exit_events_end {R} sid (r : outcome R) :
  exists before, exit_events sid r = before ++ [CloseScope sid].
Proof.
  destruct r as [a|e]; cbn [exit_events].
  - exists []. reflexivity.
  - exists [SetTag sid ERROR (TagBool true); LogError sid e]. reflexivity.
Qed.

Lemma exit_events_calls {R} sid op (r : outcome R) :
  calls (StartActiveSpan sid op) (exit_events sid r) = 0
  /\ calls (CloseScope sid) (exit_events sid r) = 1.
Proof.
  destruct r as [a|e]; unfold calls; cbn [exit_events];
    rewrite !filter_cons, !filter_nil;
    split; repeat case_decide; try discriminate; try congruence; reflexivity.
Qed.

(** C8. When [should_trace] answers no, the interceptor is the rest of
    the chain and nothing else. When it answers yes, the rest of the chain
    runs after a span named "ParentType.field" has been started and tagged
    with component "graphql", the parent type and the field name; the
    interceptor returns or raises what the rest of the chain did; leaving
    the [with] block closes the scope, after the error tag and the logged
    exception when the rest of the chain raised, and the closing is the
    last event before the outcome reaches the caller. Provided the scope's
    number is fresh and the rest of the chain leaves the scope alone, the
    span is started once and closed once. *)
Theorem tracing_span_lifecycle {R} (next_ : M R) info w :
  (should_trace info = false ->
   OpentracingGrapheneMiddleware_resolve next_ info w = next_ w)
  /\ (should_trace info = true ->
      let sid := length (List.filter is_start_span (trace w)) in
      let w0 := traced_world info w in
      let result := OpentracingGrapheneMiddleware_resolve next_ info w in
      fst result = fst (next_ w0)
      /\ req (snd result) = req (snd (next_ w0))
      /\ trace (snd result) = trace (snd (next_ w0)) ++ exit_events sid (fst (next_ w0))
      /\ (exists before, trace (snd result) = before ++ [CloseScope sid])
      /\ (scope_unused sid (trace w) = true ->
          leaves_scope_alone sid next_ w0 ->
          calls (StartActiveSpan sid (parent_type_name info +:+ "." +:+ field_name info))
                (trace (snd result)) = 1
          /\ calls (CloseScope sid) (trace (snd result)) = 1)).
Proof.
  split.
  - intros Hst. unfold OpentracingGrapheneMiddleware_resolve. rewrite Hst. reflexivity.
  - intros Hst sid w0 result.
    subst result. rewrite (traced_resolve_unfolds next_ info w Hst).
    fold sid w0. cbn [fst snd req trace].
    split; [reflexivity|]. split; [reflexivity|]. split; [reflexivity|]. split.
    + destruct (exit_events_end sid (fst (next_ w0))) as [before ->].
      exists (trace (snd (next_ w0)) ++ before). rewrite app_assoc. reflexivity.
    + intros Hfresh (evs & Hevs & Hquiet). rewrite Hevs.
      unfold w0, traced_world. cbn [trace]. fold sid.
      repeat rewrite calls_app.
      destruct (exit_events_calls sid
                  (parent_type_name info +:+ "." +:+ field_name info)
                  (fst (next_ (traced_world info w)))) as [Hs Hc].
      fold w0 in Hs, Hc. unfold w0, traced_world in Hs, Hc. fold sid in Hs, Hc.
      rewrite Hs, Hc.
      rewrite (calls_unused sid (StartActiveSpan sid _) (trace w) Hfresh),
              (calls_unused sid (CloseScope sid) (trace w) Hfresh),
              (calls_unused sid (StartActiveSpan sid _) evs Hquiet),
              (calls_unused sid (CloseScope sid) evs Hquiet)
        by (cbn; apply Nat.eqb_refl).
      unfold calls. rewrite !filter_cons, !filter_nil.
      split; repeat case_decide; try discriminate; try congruence; reflexivity.
Qed.

(** ** Further properties *)

(** *** The channel slot over a request *)

(** X1. Reading the slot is idempotent: once a read has returned a value,
    every later read returns the same value, calls nothing and changes
    nothing, whatever the slot held before (a plain value, a proxy forced
    earlier, or a proxy that this read forced). *)
Theorem force_channel_slug_idempotent w v w1 :
  force_channel_slug w = (Return v, w1) ->
  force_channel_slug w1 = (Return v, w1).
Proof.
  intros Hf. destruct (channel_slug (req w)) as [[p|l]|] eqn:Hslot.
  - rewrite (force_plain w p Hslot) in Hf. inversion Hf; subst.
    apply force_plain, Hslot.
  - destruct l as [[seed] [x|]].
    + rewrite (force_forced w _ x Hslot eq_refl) in Hf. inversion Hf; subst.
      apply (force_forced w1 _ v Hslot eq_refl).
    + destruct (truthy seed) eqn:Ht.
      * rewrite (force_unforced_truthy w seed Hslot Ht) in Hf. inversion Hf; subst.
        eapply force_forced; reflexivity.
      * rewrite (force_unforced_falsy w seed Hslot Ht) in Hf.
        destruct (get_default_channel_slug_if_available _) as [slug|[]];
          inversion Hf; subst; eapply force_forced; reflexivity.
  - unfold force_channel_slug in Hf. run. rewrite Hslot in Hf. discriminate.
Qed.

(** X2. A failure is not kept: when forcing an unforced proxy raises, the
    slot still holds the same unforced proxy, the default-channel helper has
    been called once, and the next read calls the helper again and takes
    its new answer. *)
Theorem failed_force_is_retried w seed e w1 :
  channel_slug (req w) = Some (unforced_proxy seed) ->
  force_channel_slug w = (Raise e, w1) ->
  w1 = after_default_call w
  /\ channel_slug (req w1) = Some (unforced_proxy seed)
  /\ force_channel_slug w1 =
     match get_default_channel_slug_if_available
             (S (calls CallDefaultChannelSlug (trace w))) with
     | Return slug =>
         (Return slug,
          world_with_channel_slug (forced_proxy seed slug) (after_default_call w1))
     | Raise ChannelSlugNotPassedException =>
         (Raise (GraphQLError "Argument 'channel` not passed."), after_default_call w1)
     | Raise NoChannelException =>
         (Return PyNone,
          world_with_channel_slug (forced_proxy seed PyNone) (after_default_call w1))
     | Raise e' => (Raise e', after_default_call w1)
     end.
Proof.
  intros Hslot Hf. destruct (truthy seed) eqn:Ht.
  - rewrite (force_unforced_truthy w seed Hslot Ht) in Hf. discriminate.
  - rewrite (force_unforced_falsy w seed Hslot Ht) in Hf.
    assert (Hw1 : w1 = after_default_call w).
    { destruct (get_default_channel_slug_if_available _) as [slug|[]];
        inversion Hf; reflexivity. }
    subst w1. split; [reflexivity|]. split; [exact Hslot|].
    rewrite (force_unforced_falsy (after_default_call w) seed Hslot Ht).
    unfold after_default_call at 1. cbn [trace]. rewrite calls_snoc. reflexivity.
Qed.

(** X3. A field with a truthy explicit slug on a request without a slot
    installs a proxy seeded with that slug; forcing it yields the slug and
    never asks the default-channel helper. *)
Theorem explicit_slug_needs_no_default {R} (next : M R) kwargs w :
  channel_slug (req w) = None ->
  truthy (explicit_channel_slug kwargs) = true ->
  ChannelMiddleware_resolve next kwargs w =
    next (world_with_channel_slug (unforced_proxy (explicit_channel_slug kwargs)) w)
  /\ forall w',
      channel_slug (req w') = Some (unforced_proxy (explicit_channel_slug kwargs)) ->
      force_channel_slug w' =
      (Return (explicit_channel_slug kwargs),
       world_with_channel_slug
         (forced_proxy (explicit_channel_slug kwargs) (explicit_channel_slug kwargs)) w').
Proof.
  intros Hslot Ht. split.
  - apply channel_resolve_unset, Hslot.
  - intros w' Hslot'. apply force_unforced_truthy; assumption.
Qed.

(** X4. A non-empty [input] dict without a [channel_slug] entry hides the
    [channel] argument: whatever [channel] is, the field counts as carrying
    no slug, so it replaces nothing and, on a request without a slot,
    installs the proxy that asks for the default channel. *)
Theorem input_without_slug_hides_channel {R} (next : M R) kwargs d w :
  structured_input kwargs d ->
  d !! "channel_slug" = None ->
  explicit_channel_slug kwargs = PyNone
  /\ (forall a, channel_slug (req w) = Some a ->
        ChannelMiddleware_resolve next kwargs w = next w)
  /\ (channel_slug (req w) = None ->
      ChannelMiddleware_resolve next kwargs w =
        next (world_with_channel_slug (unforced_proxy PyNone) w)).
Proof.
  intros Hin Hkey.
  assert (Hexp : explicit_channel_slug kwargs = PyNone).
  { rewrite (explicit_slug_from_input kwargs d Hin), Hkey. reflexivity. }
  split; [exact Hexp|]. split.
  - intros a Hslot. apply (channel_resolve_falsy next kwargs w a Hslot).
    rewrite Hexp. reflexivity.
  - intros Hslot. rewrite (channel_resolve_unset next kwargs w Hslot), Hexp. reflexivity.
Qed.

Lemma resolve_fields_app {R} (fs1 fs2 : list (gmap string pyval * M R)) w :
  resolve_fields (fs1 ++ fs2) w = resolve_fields fs2 (resolve_fields fs1 w).
Proof.
  revert w. induction fs1 as [|[kwargs next] fs1 IH]; intros w; [reflexivity|].
  cbn [app resolve_fields]. apply IH.
Qed.

Lemma slugless_fields_keep_proxy {R} (fields : list (gmap string pyval * M R)) :
  Forall slugless_field fields ->
  forall w l,
    channel_slug (req w) = Some (ChannelLazy l) ->
    exists l',
      channel_slug (req (resolve_fields fields w)) = Some (ChannelLazy l')
      /\ _setupfunc l' = _setupfunc l.
Proof.
  induction 1 as [|[kwargs next] rest [Hfalsy Hnext] _ IH]; intros w l Hslot.
  - exists l. split; [exact Hslot|reflexivity].
  - cbn [resolve_fields]. cbn [fst snd] in Hfalsy, Hnext.
    rewrite (channel_resolve_falsy next kwargs w _ Hslot Hfalsy).
    destruct (Hnext w l Hslot) as (l1 & Hl1 & Hs1).
    destruct (IH _ l1 Hl1) as (l2 & Hl2 & Hs2).
    exists l2. split; [exact Hl2|congruence].
Qed.

(** X5. On a request without a slot the first field installs a proxy
    seeded with its own slug, whatever that is; as long as the later fields
    carry no truthy slug the slot stays that proxy; the first later field
    that carries a truthy slug replaces the proxy by its slug as a plain
    value, and the request keeps it whatever the fields after it carry.
    So of fields carrying A, B, C the request keeps B, and of fields
    carrying nothing, A, B it keeps A. *)
Theorem first_later_slug_is_kept {R} kwargs1 (next1 : M R) quiet w :
  channel_slug (req w) = None ->
  keeps_channel_proxy next1 ->
  Forall slugless_field quiet ->
  ChannelMiddleware_resolve next1 kwargs1 w =
    next1 (world_with_channel_slug (unforced_proxy (explicit_channel_slug kwargs1)) w)
  /\ (exists l,
        channel_slug (req (resolve_fields ((kwargs1, next1) :: quiet) w))
        = Some (ChannelLazy l)
        /\ _setupfunc l = get_channel_slug_lambda (explicit_channel_slug kwargs1))
  /\ (forall kwargs next later,
        truthy (explicit_channel_slug kwargs) = true ->
        keeps_plain_channel_slug next ->
        Forall (fun f => keeps_plain_channel_slug (snd f)) later ->
        channel_slug
          (req (resolve_fields ((kwargs1, next1) :: quiet ++ (kwargs, next) :: later) w))
        = Some (ChannelPlain (explicit_channel_slug kwargs))).
Proof.
  intros Hslot Hn1 Hquiet.
  assert (Hproxy : exists l,
             channel_slug (req (resolve_fields ((kwargs1, next1) :: quiet) w))
             = Some (ChannelLazy l)
             /\ _setupfunc l = get_channel_slug_lambda (explicit_channel_slug kwargs1)).
  { cbn [resolve_fields]. rewrite (channel_resolve_unset next1 kwargs1 w Hslot).
    destruct (Hn1 (world_with_channel_slug
                     (ChannelLazy (mkLazy (get_channel_slug_lambda
                                             (explicit_channel_slug kwargs1)) None)) w)
                _ eq_refl) as (l1 & Hl1 & Hs1).
    destruct (slugless_fields_keep_proxy quiet Hquiet _ l1 Hl1) as (l2 & Hl2 & Hs2).
    exists l2. split; [exact Hl2|]. rewrite Hs2, Hs1. reflexivity. }
  split; [apply channel_resolve_unset, Hslot|]. split; [exact Hproxy|].
  intros kwargs next later Ht Hnext Hlater.
  destruct Hproxy as (l & Hl & _).
  rewrite app_comm_cons, resolve_fields_app.
  set (w1 := resolve_fields ((kwargs1, next1) :: quiet) w) in *.
  cbn [resolve_fields].
  apply (resolve_fields_keep_plain later Hlater).
  rewrite (channel_resolve_lazy_explicit next kwargs w1 l Hl Ht).
  apply Hnext. reflexivity.
Qed.

(** *** The context middlewares as a chain *)

Lemma same_outside_context_refl w : same_outside_context w w.
Proof. repeat split. Qed.

Lemma same_outside_context_trans w1 w2 w3 :
  same_outside_context w1 w2 -> same_outside_context w2 w3 ->
  same_outside_context w1 w3.
Proof.
  intros (Ht & Hp & Hm & Hc) (Ht' & Hp' & Hm' & Hc'). repeat split; congruence.
Qed.

Lemma context_middleware_frame {R} m (next : M R) w :
  exists w', run_context_middleware m next w = next w' /\ same_outside_context w w'.
Proof.
  destruct m as [|kwargs|]; cbn [run_context_middleware].
  - unfold JWTMiddleware_resolve. run. eexists. split; [reflexivity|]. repeat split.
  - destruct (channel_slug (req w)) as [[v|l]|] eqn:Hslot.
    + exists w. split; [eapply channel_resolve_plain, Hslot|repeat split].
    + destruct (truthy (explicit_channel_slug kwargs)) eqn:Ht.
      * eexists. split; [apply (channel_resolve_lazy_explicit next kwargs w l Hslot Ht)|].
        repeat split.
      * exists w. split; [apply (channel_resolve_falsy next kwargs w _ Hslot Ht)|].
        repeat split.
    + eexists. split; [apply (channel_resolve_unset next kwargs w Hslot)|]. repeat split.
  - unfold app_middleware. run.
    destruct (String.eqb (path (req w)) API_PATH);
      [|exists w; split; [reflexivity|repeat split]].
    destruct (app (req w)) as [a|]; [exists w; split; [reflexivity|repeat split]|].
    cbn. destruct (py_split _) as [|p [|t [|x rest]]];
      try (eexists; split; [reflexivity|repeat split]).
    destruct (String.eqb (py_lower p) "bearer");
      eexists; (split; [reflexivity|repeat split]).
Qed.

(** X6. The context middlewares are lazy and never fail on their own: a
    chain of [JWTMiddleware], [ChannelMiddleware] and [app_middleware] in
    any order and number runs the resolver exactly once, returns or raises
    what the resolver does, and hands it a world in which no collaborator
    has been called and the path, the headers and the user cache are as
    before; only the three attributes may differ. *)
Theorem context_chain_is_lazy {R} ms (next : M R) w :
  exists w', context_chain ms next w = next w' /\ same_outside_context w w'.
Proof.
  revert w. induction ms as [|m ms IH]; intros w; cbn [context_chain].
  - exists w. split; [reflexivity|apply same_outside_context_refl].
  - destruct (context_middleware_frame m (context_chain ms next) w) as (w1 & Hm & Hf1).
    destruct (IH w1) as (w2 & Hms & Hf2).
    exists w2. split; [congruence|].
    apply (same_outside_context_trans w w1 w2); assumption.
Qed.

(** *** What a header must look like *)

Lemma append_cons c (a b : string) : String c a +:+ b = String c (a +:+ b).
Proof. reflexivity. Qed.

Lemma append_nil (b : string) : "" +:+ b = b.
Proof. reflexivity. Qed.

Lemma append_nil_r (a : string) : a +:+ "" = a.
Proof. induction a as [|x a IH]; [reflexivity|]. rewrite append_cons, IH. reflexivity. Qed.

Lemma append_assoc_string (a b c : string) : (a +:+ b) +:+ c = a +:+ (b +:+ c).
Proof.
  induction a as [|x a IH]; [reflexivity|]. rewrite !append_cons, IH. reflexivity.
Qed.

Lemma has_space_append a b : has_space (a +:+ b) = has_space a || has_space b.
Proof.
  induction a as [|x a IH]; [reflexivity|].
  rewrite append_cons. cbn [has_space]. rewrite IH, orb_assoc. reflexivity.
Qed.

Lemma append_not_empty a c : a +:+ String c "" <> "".
Proof. destruct a; discriminate. Qed.

Lemma split_from_words s :
  forall cur,
    (forall t, cur = Some t -> is_word t) ->
    Forall is_word (split_from cur s).
Proof.
  induction s as [|c s IH]; intros cur Hcur; cbn [split_from].
  - destruct cur as [t|]; [|constructor]. constructor; [apply Hcur; reflexivity|constructor].
  - destruct (py_isspace c) eqn:Hc.
    + destruct cur as [t|].
      * constructor; [apply Hcur; reflexivity|]. apply IH. discriminate.
      * apply IH. discriminate.
    + apply IH. intros t [= <-]. split; [apply append_not_empty|].
      rewrite has_space_append. cbn [has_space]. rewrite Hc.
      destruct cur as [t|]; cbn [from_option id has_space]; [|reflexivity].
      destruct (Hcur t eq_refl) as [_ ->]. reflexivity.
Qed.

Lemma split_skips_space ws s :
  all_space ws = true -> split_from None (ws +:+ s) = split_from None s.
Proof.
  induction ws as [|c ws IH]; [reflexivity|]. cbn [all_space].
  intros [Hc Hws]%andb_true_iff.
  rewrite append_cons. cbn [split_from]. rewrite Hc. apply IH, Hws.
Qed.

Lemma split_reads_word p :
  forall cur s,
    p <> "" -> has_space p = false ->
    split_from cur (p +:+ s) = split_from (Some (default "" cur +:+ p)) s.
Proof.
  induction p as [|c p IH]; intros cur s Hne Hsp; [contradiction|].
  cbn [has_space] in Hsp. apply orb_false_iff in Hsp as [Hc Hp].
  rewrite append_cons. cbn [split_from]. rewrite Hc.
  destruct p as [|c' p'].
  - reflexivity.
  - rewrite IH by (discriminate || exact Hp).
    cbn [from_option id]. rewrite append_assoc_string. reflexivity.
Qed.

Lemma split_ends_word t ws s :
  ws <> "" -> all_space ws = true ->
  split_from (Some t) (ws +:+ s) = t :: split_from None s.
Proof.
  destruct ws as [|c ws]; [contradiction|]. cbn [all_space].
  intros _ [Hc Hws]%andb_true_iff.
  rewrite append_cons. cbn [split_from]. rewrite Hc. f_equal.
  apply split_skips_space, Hws.
Qed.

Lemma split_trailing_space t ws :
  all_space ws = true -> split_from (Some t) ws = [t].
Proof.
  destruct ws as [|c ws]; [reflexivity|]. cbn [all_space].
  intros [Hc Hws]%andb_true_iff.
  cbn [split_from]. rewrite Hc. f_equal.
  rewrite <- (append_nil_r ws). apply (split_skips_space ws "" Hws).
Qed.

Lemma split_two_words ws1 p ws2 t ws3 :
  all_space ws1 = true -> is_word p ->
  ws2 <> "" -> all_space ws2 = true -> is_word t ->
  all_space ws3 = true ->
  py_split (ws1 +:+ p +:+ ws2 +:+ t +:+ ws3) = [p; t].
Proof.
  intros H1 [Hp Hps] Hne H2 [Ht Hts] H3. unfold py_split.
  rewrite (split_skips_space ws1 _ H1).
  rewrite (split_reads_word p None _ Hp Hps). cbn [from_option id]. rewrite append_nil.
  rewrite (split_ends_word p ws2 _ Hne H2).
  rewrite (split_reads_word t None _ Ht Hts). cbn [from_option id]. rewrite append_nil.
  rewrite (split_trailing_space t ws3 H3). reflexivity.
Qed.

(** X7. The token that [app_middleware] puts in the proxy is a word:
    when a request without [app] comes out with a proxy for the token [t],
    the request was on the API path, the proxy is unforced, and [t] is not
    empty and has no white space in it. *)
Theorem installed_token_is_a_word w t wrapped :
  app (req w) = None ->
  app (req (snd (app_middleware (ret tt) w)))
  = Some (AppLazy (mkLazy (get_app_lambda t) wrapped)) ->
  path (req w) = API_PATH /\ wrapped = None /\ is_word t.
Proof.
  intros Ha Hout. unfold app_middleware in Hout. run. rewrite Ha in Hout.
  destruct (String.eqb_spec (path (req w)) API_PATH) as [Hp|_]; cbn in Hout;
    [|rewrite Ha in Hout; discriminate].
  pose proof (split_from_words (default "" (META (req w) !! "HTTP_AUTHORIZATION")) None)
    as Hwords.
  fold (py_split (default "" (META (req w) !! "HTTP_AUTHORIZATION"))) in Hwords.
  destruct (py_split _) as [|p [|t' [|x rest]]]; cbn in Hout; try discriminate.
  destruct (String.eqb (py_lower p) "bearer"); cbn in Hout; [|discriminate].
  injection Hout as <- <-.
  specialize (Hwords ltac:(discriminate)).
  inversion Hwords as [|? ? _ Hrest]; subst. inversion Hrest; subst.
  repeat split; assumption || apply H1.
Qed.

(** X8. White space around and between the two words of the header does
    not matter: on the API path, for a request without [app], a header made
    of optional white space, a word equal to "bearer" up to case, white
    space, a word [t] and optional white space installs the proxy for
    [t]. *)
Theorem spaced_bearer_header_is_accepted {R} (next : M R) w ws1 p ws2 t ws3 :
  path (req w) = API_PATH ->
  app (req w) = None ->
  META (req w) !! "HTTP_AUTHORIZATION" = Some (ws1 +:+ p +:+ ws2 +:+ t +:+ ws3) ->
  all_space ws1 = true -> is_word p -> py_lower p = "bearer" ->
  ws2 <> "" -> all_space ws2 = true -> is_word t ->
  all_space ws3 = true ->
  app_middleware next w =
  next (world_with_app (AppLazy (mkLazy (get_app_lambda t) None)) w).
Proof.
  intros Hpath Ha Hh H1 Hp Hlow Hne H2 Ht H3.
  apply (app_middleware_bearer next w p t Hpath Ha); [|exact Hlow].
  rewrite Hh. cbn [from_option id].
  apply split_two_words; assumption.
Qed.

(** *** Who passes the read-only guard *)

Lemma non_root_is_not_bypassed w w1 :
  resolves_to_non_root w w1 -> root_email_bypass w = (Return false, w1).
Proof.
  unfold root_email_bypass.
  intros [[Hu ->]|[(l & Hu & Hf)|(l & u & Hu & Hf & Hroot)]]; run; rewrite Hu.
  - reflexivity.
  - rewrite Hf. reflexivity.
  - rewrite Hf. destruct Hroot as [->|[->|(r & -> & Hne)]]; [reflexivity..|].
    destruct (String.eqb_spec (email u) r) as [E|_]; [contradiction|].
    rewrite andb_false_r. reflexivity.
Qed.

(** X9. Among mutations whose top-level selections are fields, nobody
    but the root user gets a field off the allow-list through: when the
    request has no user, an anonymous user, or a user whose email is not
    [ROOT_EMAIL], and also when [ROOT_EMAIL] is unset or empty (even for a
    user whose email is empty), a mutation that selects a field off the list
    raises [ReadOnlyException] and the rest of the chain does not run. *)
Theorem non_root_mutation_is_rejected {R} (next_ : M R) info names w w1 :
  operation (info_operation info) = "mutation" ->
  selections (info_operation info) = map Field names ->
  Exists (fun n => n ∉ ALLOWED_MUTATIONS) names ->
  resolves_to_non_root w w1 ->
  ReadOnlyMiddleware_resolve next_ info w =
  (Raise (ReadOnlyException read_only_message), w1).
Proof.
  intros Hop Hsels Hex Hnon.
  rewrite (resolve_mutation_not_bypassed next_ info w w1 Hop
             (non_root_is_not_bypassed w w1 Hnon)).
  rewrite Hsels, (check_fields_blocked names Hex). reflexivity.
Qed.

(** X10. For a mutation the guard looks at the user before it looks at
    the selections: when [request.user] is set and forcing it raises (the
    identity provider rejects the credentials), the guard raises that
    exception, whatever is selected, and the rest of the chain does not
    run; this includes mutations made only of allow-listed names. *)
Theorem mutation_fails_when_user_fails {R} (next_ : M R) info w l e w1 :
  operation (info_operation info) = "mutation" ->
  user (req w) = Some l ->
  force_user w = (Raise e, w1) ->
  ReadOnlyMiddleware_resolve next_ info w = (Raise e, w1).
Proof.
  intros Hop Hu Hf. unfold ReadOnlyMiddleware_resolve, root_email_bypass.
  rewrite Hop, String.eqb_refl. cbn [negb]. run. rewrite Hu, Hf. reflexivity.
Qed.

(** X11. [JWTMiddleware] around the read-only guard: for a mutation whose
    top-level selections all have names on the allow-list, on a request whose user is not cached yet and whose
    credentials the identity provider accepts or finds absent, the guard's
    look at the user is the one call of [authenticate]; the resolver runs
    with the result cached and [request.user] forced, so its own uses of
    [request.user] and [get_user] call nothing. *)
Theorem guard_pays_for_the_user {R} (next_ : M R) info w u :
  operation (info_operation info) = "mutation" ->
  Forall allow_listed (selections (info_operation info)) ->
  _cached_user (req w) = None ->
  authenticate (calls CallAuthenticate (trace w)) = Return u ->
  let w2 :=
    mkWorld
      (with_user (Some (mkLazy user_lambda (Some (or_AnonymousUser u))))
         (with_cached_user (Some u) (req w)))
      (trace w ++ [CallAuthenticate]) in
  JWTMiddleware_resolve (ReadOnlyMiddleware_resolve next_ info) w = next_ w2
  /\ force_user w2 = (Return (or_AnonymousUser u), w2)
  /\ get_user w2 = (Return u, w2).
Proof.
  intros Hop Hall Hc Hauth w2.
  split; [|split].
  - unfold JWTMiddleware_resolve. run. run.
    set (w0 := mkWorld (with_user (Some (mkLazy user_lambda None)) (req w)) (trace w)).
    assert (Hf : force_user w0 = (Return (or_AnonymousUser u), w2)).
    { rewrite (force_user_unforced w0 _ eq_refl eq_refl).
      rewrite (get_user_uncached w0 Hc). cbn [trace w0]. rewrite Hauth. reflexivity. }
    assert (Hb : exists b, root_email_bypass w0 = (Return b, w2)).
    { unfold root_email_bypass, bind at 1, get_request.
      change (user (req w0)) with (Some (mkLazy user_lambda (@None identity))).
      cbv beta iota. unfold bind at 1. rewrite Hf.
      destruct u as [usr|]; cbn [or_AnonymousUser]; [|eexists; reflexivity].
      destruct ROOT_EMAIL; eexists; reflexivity. }
    destruct Hb as [b Hb].
    unfold ReadOnlyMiddleware_resolve, for_selections.
    rewrite Hop, String.eqb_refl. cbn [negb]. unfold bind at 1. cbv beta. rewrite Hb.
    rewrite (check_selections_allowed _ Hall).
    destruct b; reflexivity.
  - apply (force_user_forced w2 (mkLazy user_lambda (Some (or_AnonymousUser u))));
      reflexivity.
  - apply get_user_cached. reflexivity.
Qed.

(** *** Spans over a request *)

Lemma started_app tr tr' : started (tr ++ tr') = started tr + started tr'.
Proof. unfold started. rewrite List.filter_app, length_app. reflexivity. Qed.

Lemma starts_app sid tr tr' : starts sid (tr ++ tr') = starts sid tr + starts sid tr'.
Proof. unfold starts. rewrite List.filter_app, length_app. reflexivity. Qed.

Lemma closes_app sid tr tr' : closes sid (tr ++ tr') = closes sid tr + closes sid tr'.
Proof. unfold closes. rewrite List.filter_app, length_app. reflexivity. Qed.

(** The four events that open a traced field. *)
Lemma span_opening_counts n op t1 t2 t3 sid :
  let pre := [StartActiveSpan n op; t1; t2; t3] in
  is_start_span t1 = false -> is_start_span t2 = false -> is_start_span t3 = false ->
  closes_scope sid t1 = false -> closes_scope sid t2 = false -> closes_scope sid t3 = false ->
  started pre = 1
  /\ starts sid pre = (if Nat.eqb n sid then 1 else 0)
  /\ closes sid pre = 0.
Proof.
  intros pre H1 H2 H3 C1 C2 C3. unfold started, starts, closes, pre.
  cbn [List.filter is_start_span closes_scope].
  rewrite H1, H2, H3, C1, C2, C3.
  destruct t1, t2, t3; try discriminate; cbn [starts_scope List.filter];
    destruct (Nat.eqb n sid); repeat split.
Qed.

Lemma span_closing_counts {R} n (r : outcome R) sid :
  started (exit_events n r) = 0
  /\ starts sid (exit_events n r) = 0
  /\ closes sid (exit_events n r) = (if Nat.eqb n sid then 1 else 0).
Proof.
  unfold started, starts, closes. destruct r as [a|e]; cbn;
    destruct (Nat.eqb n sid); repeat split.
Qed.

Lemma traced_world_trace info w :
  trace (traced_world info w) =
  trace w ++
  [StartActiveSpan (started (trace w)) (parent_type_name info +:+ "." +:+ field_name info);
   SetTag (started (trace w)) COMPONENT (TagStr "graphql");
   SetTag (started (trace w)) "graphql.parent_type" (TagStr (parent_type_name info));
   SetTag (started (trace w)) "graphql.field_name" (TagStr (field_name info))].
Proof. reflexivity. Qed.

Lemma traced_world_numbered info w :
  scopes_numbered (trace w) ->
  scopes_numbered (trace (traced_world info w))
  /\ started (trace (traced_world info w)) = S (started (trace w)).
Proof.
  intros Hnum. rewrite traced_world_trace.
  set (n := started (trace w)).
  set (op := parent_type_name info +:+ "." +:+ field_name info).
  assert (Hst : started (trace w ++ [StartActiveSpan n op; SetTag n COMPONENT (TagStr "graphql");
                   SetTag n "graphql.parent_type" (TagStr (parent_type_name info));
                   SetTag n "graphql.field_name" (TagStr (field_name info))]) = S n).
  { rewrite started_app.
    destruct (span_opening_counts n op (SetTag n COMPONENT (TagStr "graphql"))
                (SetTag n "graphql.parent_type" (TagStr (parent_type_name info)))
                (SetTag n "graphql.field_name" (TagStr (field_name info))) 0
                eq_refl eq_refl eq_refl eq_refl eq_refl eq_refl) as (-> & _ & _).
    fold n. lia. }
  split; [|exact Hst].
  intros sid. rewrite Hst, starts_app, closes_app.
  destruct (span_opening_counts n op (SetTag n COMPONENT (TagStr "graphql"))
              (SetTag n "graphql.parent_type" (TagStr (parent_type_name info)))
              (SetTag n "graphql.field_name" (TagStr (field_name info))) sid
              eq_refl eq_refl eq_refl eq_refl eq_refl eq_refl) as (_ & -> & ->).
  destruct (Hnum sid) as [Hold Hnew]. fold n in Hold, Hnew.
  destruct (Nat.eqb_spec n sid) as [<-|Hne].
  - split; [intros _|lia]. destruct Hnew as [-> _]; lia.
  - split.
    + intros Hlt. rewrite Hold by lia. lia.
    + intros Hge. destruct Hnew as [-> ->]; lia.
Qed.

Lemma interceptor_keeps_brackets {R} (next_ : M R) info :
  well_bracketed next_ ->
  well_bracketed (OpentracingGrapheneMiddleware_resolve next_ info).
Proof.
  intros Hnext w Hnum.
  destruct (should_trace info) eqn:Hst.
  - rewrite (traced_resolve_unfolds next_ info w Hst). cbn [snd trace].
    fold (started (trace w)).
    destruct (traced_world_numbered info w Hnum) as [Hnum0 Hst0].
    destruct (Hnext (traced_world info w) Hnum0) as (evs & Hevs & Hnum1 & Hold & Hnew).
    rewrite Hst0 in Hold, Hnew. rewrite traced_world_trace in Hevs, Hnum1, Hnew.
    set (n := started (trace w)) in *.
    set (op := parent_type_name info +:+ "." +:+ field_name info) in *.
    set (pre := [StartActiveSpan n op; SetTag n COMPONENT (TagStr "graphql");
                 SetTag n "graphql.parent_type" (TagStr (parent_type_name info));
                 SetTag n "graphql.field_name" (TagStr (field_name info))]) in *.
    set (out := exit_events n (fst (next_ (traced_world info w)))).
    assert (Hpre : forall sid,
               started pre = 1 /\ starts sid pre = (if Nat.eqb n sid then 1 else 0)
               /\ closes sid pre = 0).
    { intros sid. apply span_opening_counts; reflexivity. }
    assert (Hout : forall sid,
               started out = 0 /\ starts sid out = 0
               /\ closes sid out = (if Nat.eqb n sid then 1 else 0)).
    { intros sid. apply span_closing_counts. }
    exists (pre ++ evs ++ out).
    assert (Hm : started (trace w ++ pre ++ evs ++ out)
                 = started ((trace w ++ pre) ++ evs)).
    { rewrite !started_app. destruct (Hout 0) as (-> & _ & _). lia. }
    assert (Hge : S n <= started ((trace w ++ pre) ++ evs)).
    { rewrite !started_app. destruct (Hpre 0) as (-> & _ & _). fold n. lia. }
    split; [rewrite Hevs, <- !app_assoc; reflexivity|]. split; [|split].
    + intros sid. rewrite Hm. destruct (Hnum1 sid) as [H1 H2].
      replace (trace w ++ pre ++ evs ++ out)
        with (((trace w ++ pre) ++ evs) ++ out)
        by (rewrite <- !app_assoc; reflexivity).
      rewrite starts_app, closes_app.
      destruct (Hout sid) as (_ & -> & ->).
      split.
      * intros Hlt. rewrite (H1 Hlt). lia.
      * intros Hle. destruct (H2 Hle) as [-> ->].
        destruct (Nat.eqb_spec n sid) as [<-|_]; lia.
    + intros sid Hlt. rewrite !closes_app, (Hold sid) by lia.
      destruct (Hpre sid) as (_ & _ & ->).
      destruct (Hout sid) as (_ & _ & ->).
      destruct (Nat.eqb_spec n sid) as [<-|_]; lia.
    + intros sid Hle Hlt. rewrite Hm in Hlt. rewrite !closes_app.
      destruct (Hpre sid) as (_ & _ & ->).
      destruct (Hout sid) as (_ & _ & ->).
      destruct (Nat.eqb_spec n sid) as [<-|Hne].
      * rewrite (Hold n) by lia. lia.
      * rewrite (Hnew sid) by lia. lia.
  - unfold OpentracingGrapheneMiddleware_resolve. rewrite Hst. cbn [negb].
    apply Hnext, Hnum.
Qed.

Lemma well_bracketed_keeps_closed {R} (m : M R) w :
  well_bracketed m ->
  scopes_numbered (trace w) -> scopes_closed (trace w) ->
  scopes_numbered (trace (snd (m w))) /\ scopes_closed (trace (snd (m w))).
Proof.
  intros Hm Hnum Hcl. destruct (Hm w Hnum) as (evs & -> & Hnum' & Hold & Hnew).
  split; [exact Hnum'|]. intros sid Hlt. rewrite closes_app.
  destruct (Nat.lt_ge_cases sid (started (trace w))) as [Hs|Hs].
  - rewrite (Hcl sid Hs), (Hold sid Hs). lia.
  - destruct (Hnum sid) as [_ H2]. destruct (H2 Hs) as [_ ->].
    rewrite (Hnew sid Hs Hlt). lia.
Qed.

(** X12. Spans are well bracketed over a request. Around a rest of the
    chain that closes what it starts and nothing else, the interceptor
    again closes what it starts (its own span included, also when the rest
    raises) and nothing else, so interceptors may be nested; and over the
    fields of a request, traced or not, if every scope started so far has
    been closed once (as when nothing has been traced yet), then after all
    the fields every scope that has started has been closed exactly once
    and the scopes are still numbered in order. *)
Theorem traced_fields_close_their_spans {R} (fields : list (ResolveInfo * M R)) w :
  Forall (fun f => well_bracketed (snd f)) fields ->
  scopes_numbered (trace w) ->
  scopes_closed (trace w) ->
  Forall (fun f => well_bracketed (OpentracingGrapheneMiddleware_resolve (snd f) (fst f)))
         fields
  /\ scopes_numbered (trace (trace_fields fields w))
  /\ scopes_closed (trace (trace_fields fields w)).
Proof.
  intros Hall Hnum0 Hcl0. split.
  - induction Hall as [|[info next_] rest Hnext _ IH]; constructor; [|exact IH].
    apply interceptor_keeps_brackets, Hnext.
  - revert w Hnum0 Hcl0. induction Hall as [|[info next_] rest Hnext _ IH];
      intros w Hnum Hcl; cbn [trace_fields].
    + split; assumption.
    + destruct (well_bracketed_keeps_closed
                  (OpentracingGrapheneMiddleware_resolve next_ info) w
                  (interceptor_keeps_brackets next_ info Hnext) Hnum Hcl)
        as [Hnum' Hcl'].
      apply IH; assumption.
Qed.

(** *** The app proxy over a request *)

(** X13. The app query is not repeated within a request: once a read of
    [request.app] has returned, later reads return the same result without
    a query, and [app_middleware] on later fields leaves the attribute as it
    is. *)
Theorem app_query_is_not_repeated {R} (next : M R) w a w1 :
  force_app w = (Return a, w1) ->
  force_app w1 = (Return a, w1) /\ app_middleware next w1 = next w1.
Proof.
  intros Hf. unfold force_app, get_app in Hf. run.
  destruct (app (req w)) as [[|[[t] [x|]]]|] eqn:Ha; cbn in Hf; try discriminate;
    inversion Hf; subst.
  - split; [unfold force_app; run; rewrite Ha; reflexivity|].
    apply (app_middleware_set next w1 _ Ha).
  - split; [unfold force_app; run; rewrite Ha; reflexivity|].
    apply (app_middleware_set next w1 _ Ha).
  - split; [reflexivity|]. eapply app_middleware_set. reflexivity.
Qed.

(** *** Selections that are not fields *)

(** X14. For a mutation of a request that does not resolve to the root
    user, a top-level inline fragment that comes before any name off the
    allow-list makes the guard raise the [AttributeError] of the access to
    its missing [name], not [ReadOnlyException], whatever comes after it,
    and the rest of the chain does not run: this holds also when every name
    selected is on the list. *)
Theorem inline_fragment_raises_attribute_error {R} (next_ : M R) info w w1 pre rest :
  operation (info_operation info) = "mutation" ->
  resolves_to_non_root w w1 ->
  selections (info_operation info) = pre ++ InlineFragment :: rest ->
  Forall allow_listed pre ->
  ReadOnlyMiddleware_resolve next_ info w = (Raise (AttributeError "name"), w1).
Proof.
  intros Hop Hnon Hsels Hpre.
  rewrite (resolve_mutation_not_bypassed next_ info w w1 Hop
             (non_root_is_not_bypassed w w1 Hnon)).
  rewrite Hsels, (check_selections_skip pre _ Hpre).
  rewrite (check_selections_nameless_head InlineFragment (AttributeError "name") rest eq_refl).
  reflexivity.
Qed.

Lemma check_selections_as_field sels :
  check_selections (map as_field sels) = check_selections sels.
Proof.
  induction sels as [|s sels IH]; [reflexivity|].
  cbn [map check_selections]. rewrite IH. destruct s; reflexivity.
Qed.

(** X15. The guard judges a top-level fragment spread by the name of the
    fragment, exactly as it judges a field of that name, and never looks at
    what the fragment selects: reading every top-level spread as a field of
    the same name changes nothing in what the guard does. So for a request
    that does not resolve to the root user, a mutation whose only top-level
    selection is a spread of a fragment named like an allow-listed mutation
    is delegated, and one whose fragment has any other name is rejected. *)
Theorem fragment_spread_is_judged_by_its_name {R} (next_ : M R) info w :
  ReadOnlyMiddleware_resolve next_ info w =
  ReadOnlyMiddleware_resolve next_
    (with_selections (map as_field (selections (info_operation info))) info) w
  /\ (forall w1 n,
        operation (info_operation info) = "mutation" ->
        resolves_to_non_root w w1 ->
        selections (info_operation info) = [FragmentSpread n] ->
        ReadOnlyMiddleware_resolve next_ info w =
        if bool_decide (n ∈ ALLOWED_MUTATIONS) then next_ w1
        else (Raise (ReadOnlyException read_only_message), w1)).
Proof.
  split.
  - unfold ReadOnlyMiddleware_resolve, for_selections, with_selections.
    cbn [info_operation operation selections].
    rewrite check_selections_as_field. reflexivity.
  - intros w1 n Hop Hnon Hsels.
    rewrite (resolve_mutation_not_bypassed next_ info w w1 Hop
               (non_root_is_not_bypassed w w1 Hnon)).
    rewrite Hsels. cbn [check_selections name_value]. unfold blocked.
    destruct (bool_decide (n ∈ ALLOWED_MUTATIONS)); reflexivity.
Qed.

(** Code that leaves the tracer's record as it is is well bracketed. *)
Lemma quiet_is_well_bracketed {R} (m : M R) :
  (forall w, trace (snd (m w)) = trace w) -> well_bracketed m.
Proof.
  intros Hq w Hnum. exists []. rewrite app_nil_r.
  split; [apply Hq|]. split; [exact Hnum|]. split.
  - reflexivity.
  - intros sid Hle Hlt. lia.
Qed.

Lemma nothing_traced_yet : scopes_numbered [] /\ scopes_closed [].
Proof.
  split.
  - intros sid. split; [cbn; lia|]. intros _. split; reflexivity.
  - intros sid Hlt. cbn in Hlt. lia.
Qed.

Lemma keeps_proxy_ret {R} (r : R) : keeps_channel_proxy (ret r).
Proof. intros w l Hslot. exists l. split; [exact Hslot|reflexivity]. Qed.

End Middleware.

(** ** The properties on the sample requests *)

(** C1 fails as stated. A proxy that nothing has forced, given the
    explicit slug ["C"], is replaced by the plain string and not by a new
    proxy; and a proxy that has been forced to ["X"] is replaced too, so the
    slot that read ["X"] reads ["C"] afterwards. *)
Lemma channel_replacement_not_lazy :
  (channel_slug (req (snd (ChannelMiddleware_resolve (ret tt) (kwargs_channel "C") world_unforced)))
   = Some (ChannelPlain (PyStr "C"))
   /\ isinstance_SimpleLazyObject
        (req (snd (ChannelMiddleware_resolve (ret tt) (kwargs_channel "C") world_unforced)))
      = false)
  /\ (force_channel_slug helper_default world_forced = (Return (PyStr "X"), world_forced)
      /\ fst (force_channel_slug helper_default
                (snd (ChannelMiddleware_resolve (ret tt) (kwargs_channel "C") world_forced)))
         = Return (PyStr "C")).
Proof. vm_compute. repeat split. Qed.

(** C1 as the code has it, on the forced proxy. *)
Lemma channel_replacement_rule_witness :
  channel_slug (req world_forced) = Some (forced_proxy PyNone (PyStr "X"))
  /\ truthy (explicit_channel_slug (kwargs_channel "C")) = true
  /\ ChannelMiddleware_resolve (ret tt) (kwargs_channel "C") world_forced
     = ret tt (world_with_channel_slug (ChannelPlain (PyStr "C")) world_forced)
  /\ force_channel_slug helper_default
       (world_with_channel_slug (ChannelPlain (PyStr "C")) world_forced)
     = (Return (PyStr "C"), world_with_channel_slug (ChannelPlain (PyStr "C")) world_forced).
Proof.
  split; [reflexivity|]. split; [reflexivity|].
  exact (channel_replacement_rule helper_default (ret tt) (kwargs_channel "C")
           world_forced (forced_proxy PyNone (PyStr "X")) eq_refl eq_refl).
Defined.



(** C4 on the three answers of the helper. *)
Lemma missing_channel_resolution_witness :
  channel_slug (req sample_world) = None
  /\ explicit_channel_slug ∅ = PyNone
  /\ force_channel_slug helper_must_pass world_unforced
     = (Raise (GraphQLError "Argument 'channel` not passed."),
        after_default_call world_unforced)
  /\ force_channel_slug helper_no_channel world_unforced
     = (Return PyNone,
        world_with_channel_slug (forced_proxy PyNone PyNone)
          (after_default_call world_unforced))
  /\ force_channel_slug helper_default world_unforced
     = (Return (PyStr "default-channel"),
        world_with_channel_slug (forced_proxy PyNone (PyStr "default-channel"))
          (after_default_call world_unforced)).
Proof.
  split; [reflexivity|]. split; [reflexivity|]. split; [|split].
  - exact (proj2 (missing_channel_resolution helper_must_pass (ret tt) ∅ sample_world
                    eq_refl eq_refl) world_unforced eq_refl).
  - exact (proj2 (missing_channel_resolution helper_no_channel (ret tt) ∅ sample_world
                    eq_refl eq_refl) world_unforced eq_refl).
  - exact (proj2 (missing_channel_resolution helper_default (ret tt) ∅ sample_world
                    eq_refl eq_refl) world_unforced eq_refl).
Defined.

(** C5 on a field that has only the [channel] argument, on a request
    without a slot and on one whose slot holds a proxy. *)
Lemma channel_slug_priority_witness :
  ChannelMiddleware_resolve (ret tt) (kwargs_channel "B") sample_world
  = ret tt (world_with_channel_slug (unforced_proxy (PyStr "B")) sample_world)
  /\ ChannelMiddleware_resolve (ret tt) (kwargs_channel "B") world_unforced
     = ret tt (world_with_channel_slug (ChannelPlain (PyStr "B")) world_unforced).
Proof.
  assert (Hno : forall d, ~ structured_input (kwargs_channel "B") d).
  { intros d [Hin _]. vm_compute in Hin. discriminate. }
  split.
  - refine (proj1 (proj2 (channel_slug_priority helper_default (ret tt)
                             (kwargs_channel "B") sample_world))
              (PyStr "B") Hno eq_refl _).
    discriminate.
  - refine (proj1 (proj2 (channel_slug_priority helper_default (ret tt)
                             (kwargs_channel "B") world_unforced))
              (PyStr "B") Hno eq_refl _).
    discriminate.
Defined.

(** C10 on [channel = ""], with and without a slot on the request. *)
Lemma empty_slug_is_absent_witness :
  explicit_channel_slug (kwargs_channel "") = PyStr ""
  /\ ChannelMiddleware_resolve (ret tt) (kwargs_channel "") world_unforced
     = ret tt world_unforced
  /\ force_channel_slug helper_default
       (world_with_channel_slug (unforced_proxy (PyStr "")) sample_world)
     = (Return (PyStr "default-channel"),
        world_with_channel_slug (forced_proxy (PyStr "") (PyStr "default-channel"))
          (after_default_call (world_with_channel_slug (unforced_proxy (PyStr "")) sample_world))).
Proof.
  split; [reflexivity|]. split.
  - exact (proj1 (empty_slug_is_absent helper_default (ret tt) (kwargs_channel "")
                    world_unforced eq_refl) _ eq_refl).
  - exact (proj1 (proj2 (proj2 (empty_slug_is_absent helper_default (ret tt)
                                  (kwargs_channel "") world_unforced eq_refl)))
             (world_with_channel_slug (unforced_proxy (PyStr "")) sample_world) eq_refl).
Defined.

Lemma keeps_plain_ret {R} (r : R) : keeps_plain_channel_slug (ret r).
Proof. intros w v Hslot. exact Hslot. Qed.

(** C9 on three fields carrying the slugs ["C"], ["D"] and ["E"]. *)
Lemma first_replacement_wins_witness :
  channel_slug (req world_unforced) = Some (unforced_proxy PyNone)
  /\ truthy (explicit_channel_slug (kwargs_channel "C")) = true
  /\ force_channel_slug helper_default
       (resolve_fields
          [(kwargs_channel "C", ret tt); (kwargs_channel "D", ret tt);
           (kwargs_input "E", ret tt)]
          world_unforced)
     = (Return (PyStr "C"),
        resolve_fields
          [(kwargs_channel "C", ret tt); (kwargs_channel "D", ret tt);
           (kwargs_input "E", ret tt)]
          world_unforced).
Proof.
  split; [reflexivity|]. split; [reflexivity|].
  refine (proj2 (proj2 (first_replacement_wins helper_default (kwargs_channel "C") (ret tt)
            [(kwargs_channel "D", ret tt); (kwargs_input "E", ret tt)]
            world_unforced _ eq_refl eq_refl (keeps_plain_ret tt) _))).
  repeat constructor; apply keeps_plain_ret.
Defined.

(** C6 on a bearer header, another scheme, no header, and another
    path. *)
Lemma app_resolution_witness :
  app_middleware "/graphql/" (ret tt) (world_with_header "/graphql/" "Bearer abc")
  = ret tt (world_with_app (AppLazy (mkLazy (get_app_lambda "abc") None))
              (world_with_header "/graphql/" "Bearer abc"))
  /\ app_middleware "/graphql/" (ret tt) (world_with_header "/graphql/" "Basic xyz")
     = ret tt (world_with_app AppNone (world_with_header "/graphql/" "Basic xyz"))
  /\ app_middleware "/graphql/" (ret tt) sample_world
     = ret tt (world_with_app AppNone sample_world)
  /\ app_middleware "/graphql/" (ret tt) (world_with_header "/dashboard/" "Bearer abc")
     = ret tt (world_with_header "/dashboard/" "Bearer abc").
Proof.
  split; [|split; [|split]].
  - exact (proj1 (proj2 (proj2 (app_resolution no_apps "/graphql/" (ret tt)
             (world_with_header "/graphql/" "Bearer abc"))))
             eq_refl eq_refl "Bearer" "abc" eq_refl eq_refl).
  - refine (proj1 (proj2 (proj2 (proj2 (app_resolution no_apps "/graphql/" (ret tt)
             (world_with_header "/graphql/" "Basic xyz")))))
             eq_refl eq_refl _).
    intros p t Hs. vm_compute in Hs. injection Hs as <- <-. vm_compute. discriminate.
  - refine (proj1 (proj2 (proj2 (proj2 (app_resolution no_apps "/graphql/" (ret tt)
             sample_world)))) eq_refl eq_refl _).
    intros p t Hs. vm_compute in Hs. discriminate.
  - refine (proj1 (app_resolution no_apps "/graphql/" (ret tt)
             (world_with_header "/dashboard/" "Bearer abc")) _).
    vm_compute. discriminate.
Defined.

(** C3 fails as stated. With an identity provider that raises, a mutation
    selecting only [productCreate] comes out of the guard with the
    provider's exception, not with [ReadOnlyException]; and with an inline
    fragment in front of [productCreate] the guard raises
    [AttributeError]. *)
Lemma read_only_guard_other_errors :
  fst (ReadOnlyMiddleware_resolve authenticate_expired None (ret tt)
         (mutation_of ["productCreate"]) world_of_alice)
  = Raise (OtherException "Signature has expired")
  /\ fst (ReadOnlyMiddleware_resolve authenticate_nobody None (ret tt)
            (mutation_with_inline_fragment ["productCreate"]) sample_world)
     = Raise (AttributeError "name").
Proof. vm_compute. split; reflexivity. Qed.

(** C3 as the code has it, on [tokenCreate] with [productCreate] and an
    inline fragment after them, and on [tokenCreate] alone. *)
Lemma read_only_guard_witness :
  operation (info_operation (mutation_of ["tokenCreate"])) = "mutation"
  /\ root_email_bypass authenticate_nobody None sample_world = (Return false, sample_world)
  /\ ReadOnlyMiddleware_resolve authenticate_nobody None (ret tt)
       (with_selections [Field "tokenCreate"; Field "productCreate"; InlineFragment]
          (mutation_of ["tokenCreate"]))
       sample_world
     = (Raise (ReadOnlyException read_only_message), sample_world)
  /\ ReadOnlyMiddleware_resolve authenticate_nobody None (ret tt)
       (mutation_of ["tokenCreate"]) sample_world
     = ret tt sample_world.
Proof.
  split; [reflexivity|]. split; [reflexivity|]. split.
  - refine (proj1 (proj2 (read_only_guard authenticate_nobody None (ret tt)
                     (with_selections
                        [Field "tokenCreate"; Field "productCreate"; InlineFragment]
                        (mutation_of ["tokenCreate"]))
                     sample_world sample_world eq_refl eq_refl))
              ["tokenCreate"] "productCreate" [InlineFragment] eq_refl _ _).
    + repeat constructor.
    + apply blocked_true. reflexivity.
  - refine (proj2 (proj2 (read_only_guard authenticate_nobody None (ret tt)
                     (mutation_of ["tokenCreate"])
                     sample_world sample_world eq_refl eq_refl))
              ["tokenCreate"] eq_refl _).
    repeat constructor.
Defined.

(** C7 on the root user selecting [productCreate], and on a query. *)
Lemma root_email_bypass_rule_witness :
  ReadOnlyMiddleware_resolve authenticate_alice (Some "root@example.com") (ret tt)
    (mutation_of ["productCreate"]) world_of_alice
  = ret tt (snd (force_user authenticate_alice world_of_alice))
  /\ ReadOnlyMiddleware_resolve authenticate_alice (Some "root@example.com") (ret tt)
       query_products world_of_alice
     = ret tt world_of_alice.
Proof.
  split.
  - refine (proj2 (root_email_bypass_rule authenticate_alice (Some "root@example.com")
                     (ret tt) (mutation_of ["productCreate"]) world_of_alice)
              eq_refl (mkLazy user_lambda None) alice _ "root@example.com"
              eq_refl eq_refl eq_refl _ eq_refl).
    discriminate.
  - refine (proj1 (root_email_bypass_rule authenticate_alice (Some "root@example.com")
                     (ret tt) query_products world_of_alice) _).
    vm_compute. discriminate.
Defined.

(** C8 on a traced field whose resolver raises. *)
Lemma tracing_span_lifecycle_witness :
  fst (OpentracingGrapheneMiddleware_resolve (fun _ => true) failing_resolver
          query_products sample_world) = Raise (OtherException "resolver failed")
  /\ trace (snd (OpentracingGrapheneMiddleware_resolve (fun _ => true) failing_resolver
          query_products sample_world))
     = [StartActiveSpan 0 "Query.products"; SetTag 0 "component" (TagStr "graphql");
        SetTag 0 "graphql.parent_type" (TagStr "Query");
        SetTag 0 "graphql.field_name" (TagStr "products");
        SetTag 0 "error" (TagBool true);
        LogError 0 (OtherException "resolver failed");
        CloseScope 0]
  /\ calls (StartActiveSpan 0 "Query.products") (trace (snd (OpentracingGrapheneMiddleware_resolve (fun _ => true) failing_resolver
          query_products sample_world))) = 1
  /\ calls (CloseScope 0) (trace (snd (OpentracingGrapheneMiddleware_resolve (fun _ => true) failing_resolver
          query_products sample_world))) = 1.
Proof.
  pose proof (proj2 (tracing_span_lifecycle (fun _ => true) failing_resolver query_products
                       sample_world) eq_refl) as H.
  destruct H as (Hr & _ & Ht & _ & Hc).
  split; [exact Hr|]. split; [exact Ht|].
  apply Hc; [reflexivity|]. exists []. split; reflexivity.
Defined.

(** ** The further properties on the sample requests *)

(** X1 on a proxy that the read forces to the default channel. *)
Lemma force_channel_slug_idempotent_witness :
  force_channel_slug helper_default world_unforced
  = (Return (PyStr "default-channel"),
     world_with_channel_slug (forced_proxy PyNone (PyStr "default-channel"))
       (after_default_call world_unforced))
  /\ force_channel_slug helper_default
       (world_with_channel_slug (forced_proxy PyNone (PyStr "default-channel"))
          (after_default_call world_unforced))
     = (Return (PyStr "default-channel"),
        world_with_channel_slug (forced_proxy PyNone (PyStr "default-channel"))
          (after_default_call world_unforced)).
Proof.
  split; [reflexivity|].
  exact (force_channel_slug_idempotent helper_default world_unforced
           (PyStr "default-channel") _ eq_refl).
Defined.

(** X2 on a helper that fails once: the second read gets the default. *)
Lemma failed_force_is_retried_witness :
  force_channel_slug helper_flaky world_unforced
  = (Raise (GraphQLError "Argument 'channel` not passed."),
     after_default_call world_unforced)
  /\ force_channel_slug helper_flaky (after_default_call world_unforced)
     = (Return (PyStr "default-channel"),
        world_with_channel_slug (forced_proxy PyNone (PyStr "default-channel"))
          (after_default_call (after_default_call world_unforced))).
Proof.
  split; [reflexivity|].
  exact (proj2 (proj2 (failed_force_is_retried helper_flaky world_unforced PyNone
                         (GraphQLError "Argument 'channel` not passed.")
                         (after_default_call world_unforced) eq_refl eq_refl))).
Defined.

(** X3 on [channel = "A"] with a helper that would refuse. *)
Lemma explicit_slug_needs_no_default_witness :
  channel_slug (req sample_world) = None
  /\ truthy (explicit_channel_slug (kwargs_channel "A")) = true
  /\ force_channel_slug helper_must_pass
       (world_with_channel_slug (unforced_proxy (PyStr "A")) sample_world)
     = (Return (PyStr "A"),
        world_with_channel_slug (forced_proxy (PyStr "A") (PyStr "A"))
          (world_with_channel_slug (unforced_proxy (PyStr "A")) sample_world)).
Proof.
  split; [reflexivity|]. split; [reflexivity|].
  exact (proj2 (explicit_slug_needs_no_default helper_must_pass (ret tt)
                  (kwargs_channel "A") sample_world eq_refl eq_refl)
           (world_with_channel_slug (unforced_proxy (PyStr "A")) sample_world) eq_refl).
Defined.

(** X4 on [input = {name: "x"}] with [channel = "B"]. *)
Lemma input_without_slug_hides_channel_witness :
  kwargs_input_without_slug !! "channel" = Some (PyStr "B")
  /\ explicit_channel_slug kwargs_input_without_slug = PyNone
  /\ ChannelMiddleware_resolve (ret tt) kwargs_input_without_slug world_unforced
     = ret tt world_unforced.
Proof.
  assert (Hin : structured_input kwargs_input_without_slug {["name" := PyStr "x"]}).
  { split; [reflexivity|]. intros H. apply (f_equal (fun m => m !! "name")) in H.
    vm_compute in H. discriminate. }
  split; [reflexivity|].
  pose proof (input_without_slug_hides_channel (ret tt) kwargs_input_without_slug
                {["name" := PyStr "x"]} world_unforced Hin eq_refl) as (He & Hkeep & _).
  split; [exact He|]. exact (Hkeep _ eq_refl).
Defined.

(** X5 on fields carrying ["A"], ["B"], ["C"], and on fields carrying
    nothing, ["A"], ["B"]. *)
Lemma first_later_slug_is_kept_witness :
  channel_slug
    (req (resolve_fields
            [(kwargs_channel "A", ret tt); (kwargs_channel "B", ret tt);
             (kwargs_channel "C", ret tt)]
            sample_world))
  = Some (ChannelPlain (PyStr "B"))
  /\ channel_slug
       (req (resolve_fields
               [(∅, ret tt); (kwargs_channel "A", ret tt); (kwargs_channel "B", ret tt)]
               sample_world))
     = Some (ChannelPlain (PyStr "A")).
Proof.
  split.
  - refine (proj2 (proj2 (first_later_slug_is_kept (kwargs_channel "A") (ret tt) []
                            sample_world eq_refl (keeps_proxy_ret tt) _))
              (kwargs_channel "B") (ret tt) [(kwargs_channel "C", ret tt)]
              eq_refl (keeps_plain_ret tt) _).
    + constructor.
    + repeat constructor; apply keeps_plain_ret.
  - refine (proj2 (proj2 (first_later_slug_is_kept ∅ (ret tt) [] sample_world
                            eq_refl (keeps_proxy_ret tt) _))
              (kwargs_channel "A") (ret tt) [(kwargs_channel "B", ret tt)]
              eq_refl (keeps_plain_ret tt) _).
    + constructor.
    + repeat constructor; apply keeps_plain_ret.
Defined.

(** X7 on the header [Bearer abc]. *)
Lemma installed_token_is_a_word_witness :
  app (req (world_with_header "/graphql/" "Bearer abc")) = None
  /\ is_word "abc".
Proof.
  split; [reflexivity|].
  exact (proj2 (proj2 (installed_token_is_a_word "/graphql/"
                         (world_with_header "/graphql/" "Bearer abc") "abc" None
                         eq_refl eq_refl))).
Defined.

(** X8 on the header [ BEARER   abc ]. *)
Lemma spaced_bearer_header_is_accepted_witness :
  app_middleware "/graphql/" (ret tt) (world_with_header "/graphql/" " BEARER   abc ")
  = ret tt (world_with_app (AppLazy (mkLazy (get_app_lambda "abc") None))
              (world_with_header "/graphql/" " BEARER   abc ")).
Proof.
  refine (spaced_bearer_header_is_accepted "/graphql/" (ret tt)
            (world_with_header "/graphql/" " BEARER   abc ")
            " " "BEARER" "   " "abc" " "
            eq_refl eq_refl eq_refl eq_refl _ eq_refl _ eq_refl _ eq_refl).
  - split; [discriminate|reflexivity].
  - discriminate.
  - split; [discriminate|reflexivity].
Defined.

(** X9 with an empty [ROOT_EMAIL] and a user whose email is empty. *)
Lemma non_root_mutation_is_rejected_witness :
  email nameless = ""
  /\ ReadOnlyMiddleware_resolve authenticate_nameless (Some "") (ret tt)
       (mutation_of ["productCreate"]) world_of_alice
     = (Raise (ReadOnlyException read_only_message),
        snd (force_user authenticate_nameless world_of_alice)).
Proof.
  split; [reflexivity|].
  refine (non_root_mutation_is_rejected authenticate_nameless (Some "") (ret tt)
            (mutation_of ["productCreate"]) ["productCreate"] world_of_alice _
            eq_refl eq_refl _ _).
  - apply Exists_cons_hd. apply blocked_true. reflexivity.
  - right; right. exists (mkLazy user_lambda None), nameless.
    split; [reflexivity|]. split; [reflexivity|]. right; left. reflexivity.
Defined.

(** X10 on [tokenCreate] with credentials that the provider rejects by
    raising. *)
Lemma mutation_fails_when_user_fails_witness :
  ReadOnlyMiddleware_resolve authenticate_expired None (ret tt)
    (mutation_of ["tokenCreate"]) world_of_alice
  = (Raise (OtherException "Signature has expired"),
     snd (force_user authenticate_expired world_of_alice)).
Proof.
  exact (mutation_fails_when_user_fails authenticate_expired None (ret tt)
           (mutation_of ["tokenCreate"]) world_of_alice (mkLazy user_lambda None)
           (OtherException "Signature has expired") _ eq_refl eq_refl eq_refl).
Defined.

(** X11 on [tokenCreate] by an anonymous request. *)
Lemma guard_pays_for_the_user_witness :
  calls CallAuthenticate
    (trace (snd (JWTMiddleware_resolve
                   (ReadOnlyMiddleware_resolve authenticate_nobody None
                      (user_fn authenticate_nobody) (mutation_of ["tokenCreate"]))
                   sample_world)))
  = 1.
Proof.
  pose proof (guard_pays_for_the_user authenticate_nobody None
                (user_fn authenticate_nobody) (mutation_of ["tokenCreate"])
                sample_world None eq_refl) as H.
  cbv zeta in H.
  destruct H as (-> & _ & _);
    [apply (fields_allow_listed ["tokenCreate"]); repeat constructor
    |reflexivity|reflexivity|].
  reflexivity.
Defined.

(** X12 on two traced fields, the first of which raises and the second of
    which runs under a second interceptor. *)
Lemma traced_fields_close_their_spans_witness :
  started
    (trace (trace_fields (fun _ => true)
              [(query_products, failing_resolver);
               (query_products,
                OpentracingGrapheneMiddleware_resolve (fun _ => true) (ret tt) query_products)]
              sample_world)) = 3
  /\ closes 0 (trace (trace_fields (fun _ => true)
              [(query_products, failing_resolver);
               (query_products,
                OpentracingGrapheneMiddleware_resolve (fun _ => true) (ret tt) query_products)]
              sample_world)) = 1
  /\ closes 2 (trace (trace_fields (fun _ => true)
              [(query_products, failing_resolver);
               (query_products,
                OpentracingGrapheneMiddleware_resolve (fun _ => true) (ret tt) query_products)]
              sample_world)) = 1.
Proof.
  assert (Hall : Forall (fun f : ResolveInfo * M unit => well_bracketed (snd f))
            [(query_products, failing_resolver);
             (query_products,
              OpentracingGrapheneMiddleware_resolve (fun _ => true) (ret tt) query_products)]).
  { constructor; [apply quiet_is_well_bracketed; reflexivity|].
    constructor; [|constructor].
    apply interceptor_keeps_brackets, quiet_is_well_bracketed. reflexivity. }
  destruct (traced_fields_close_their_spans (fun _ => true) _ sample_world Hall
              (proj1 nothing_traced_yet) (proj2 nothing_traced_yet)) as (_ & _ & Hcl).
  split; [reflexivity|]. split; apply Hcl; vm_compute; lia.
Defined.

(** X13 on the header [Bearer abc]: the second read of the forced proxy
    returns the same app and leaves the world as it is. *)
Lemma app_query_is_not_repeated_witness :
  force_app apps_with_abc
    (snd (app_middleware "/graphql/" (ret tt) (world_with_header "/graphql/" "Bearer abc")))
  = (Return (Some shop_app),
     snd (force_app apps_with_abc
            (snd (app_middleware "/graphql/" (ret tt)
                    (world_with_header "/graphql/" "Bearer abc")))))
  /\ force_app apps_with_abc
       (snd (force_app apps_with_abc
               (snd (app_middleware "/graphql/" (ret tt)
                       (world_with_header "/graphql/" "Bearer abc")))))
     = (Return (Some shop_app),
        snd (force_app apps_with_abc
               (snd (app_middleware "/graphql/" (ret tt)
                       (world_with_header "/graphql/" "Bearer abc"))))).
Proof.
  split; [reflexivity|].
  exact (proj1 (app_query_is_not_repeated apps_with_abc "/graphql/" (ret tt)
                  (snd (app_middleware "/graphql/" (ret tt)
                          (world_with_header "/graphql/" "Bearer abc")))
                  (Some shop_app)
                  (snd (force_app apps_with_abc
                          (snd (app_middleware "/graphql/" (ret tt)
                                  (world_with_header "/graphql/" "Bearer abc")))))
                  eq_refl)).
Defined.

(** X14 on an inline fragment in front of [tokenCreate]. *)
Lemma inline_fragment_raises_attribute_error_witness :
  ReadOnlyMiddleware_resolve authenticate_nobody None (ret tt)
    (mutation_with_inline_fragment ["tokenCreate"]) sample_world
  = (Raise (AttributeError "name"), sample_world).
Proof.
  refine (inline_fragment_raises_attribute_error authenticate_nobody None (ret tt)
            (mutation_with_inline_fragment ["tokenCreate"]) sample_world sample_world
            [] [Field "tokenCreate"] eq_refl _ eq_refl _).
  - left. split; reflexivity.
  - constructor.
Defined.

(** X15 on a spread of a fragment named [tokenCreate], on a request
    without a user. *)
Lemma fragment_spread_is_judged_by_its_name_witness :
  ReadOnlyMiddleware_resolve authenticate_nobody None (ret tt)
    (mutation_of_spread "tokenCreate") sample_world
  = ret tt sample_world.
Proof.
  refine (proj2 (fragment_spread_is_judged_by_its_name authenticate_nobody None (ret tt)
                   (mutation_of_spread "tokenCreate") sample_world)
            sample_world "tokenCreate" eq_refl _ eq_refl).
  left. split; reflexivity.
Defined.
